(** * model-guard: the mesh validation pipeline of [backend/validator.py]

    A shallow embedding of [backend/models.py] and of the class
    [MeshValidator] of [backend/validator.py], followed by the properties of
    the pipeline.

    Conventions of the embedding.
    - numpy [float64] values are Rocq's primitive binary64 floats; a 3D point
      is a triple of them. [np.linalg.norm] of one vector is the square root
      of [x.dot(x)], a dot product that accumulates with fused multiply-adds
      ([norm_1d]); [np.linalg.norm(a, axis=1)] squares, adds and takes the
      root with one rounding per operation ([norm]). [np.cross] is the usual
      cross product, one rounding per operation.
    - Python exceptions are the error side of [result]; the payload is
      [str(e)]. Every exception of the model derives from [Exception], so
      [except Exception] catches all of them.
    - The geometry library (trimesh) is outside the repository: a loaded
      object is a record of its data ([vertices], [faces]) and of what each
      property used by the validator returns or raises ([bounds],
      [is_watertight], ...). What differs from one run to the next (the
      clock, the uuid, the random surface sample) is gathered in [Run]. *)

From Stdlib Require Import String List ZArith Lia Bool Permutation Floats DecimalString.
From Stdlib Require Import Sorted.
From Stdlib Require Ascii.
Import ListNotations.
Open Scope string_scope.
Open Scope list_scope.
Open Scope nat_scope.
Set Warnings "-inexact-float".

(** ** Exceptions *)

Inductive result (A : Type) : Type :=
| Ok (a : A)
| Raise (e : string).
Arguments Ok {A} a.
Arguments Raise {A} e.

Definition bind {A B : Type} (c : result A) (k : A -> result B) : result B :=
  match c with
  | Ok a => k a
  | Raise e => Raise e
  end.

Notation "x <- c ;; k" := (bind c (fun x => k))
  (at level 61, c at next level, right associativity).

(** [str(n)] of a non-negative Python int. *)
Definition str_nat (n : nat) : string := NilZero.string_of_uint (Nat.to_uint n).

(** ** numpy on 3D points *)

Definition vec3 : Type := (float * float * float)%type.

Definition vsub (a b : vec3) : vec3 :=
  let '(a0, a1, a2) := a in
  let '(b0, b1, b2) := b in
  (a0 - b0, a1 - b1, a2 - b2)%float.

Definition cross (a b : vec3) : vec3 :=
  let '(a0, a1, a2) := a in
  let '(b0, b1, b2) := b in
  (a1 * b2 - a2 * b1, a2 * b0 - a0 * b2, a0 * b1 - a1 * b0)%float.

(** A row of [np.linalg.norm(a, axis=1)]: [sqrt(add.reduce(a * a))]. *)
Definition norm (a : vec3) : float :=
  let '(a0, a1, a2) := a in
  PrimFloat.sqrt (a0 * a0 + a1 * a1 + a2 * a2)%float.

(** Fused multiply-add, [x * y + z] with one rounding to nearest even, on the
    specification of binary64. *)
Definition SFfma (x y z : spec_float) : spec_float :=
  match x, y with
  | S754_nan, _ | _, S754_nan => S754_nan
  | S754_infinity _, S754_zero _ | S754_zero _, S754_infinity _ => S754_nan
  | S754_infinity sx, S754_infinity sy
  | S754_infinity sx, S754_finite sy _ _
  | S754_finite sx _ _, S754_infinity sy =>
      SFadd prec emax (S754_infinity (xorb sx sy)) z
  | S754_zero sx, S754_zero sy
  | S754_zero sx, S754_finite sy _ _
  | S754_finite sx _ _, S754_zero sy =>
      SFadd prec emax (S754_zero (xorb sx sy)) z
  | S754_finite sx mx ex, S754_finite sy my ey =>
      let sp := xorb sx sy in
      let mp := Pos.mul mx my in
      let ep := Z.add ex ey in
      match z with
      | S754_nan => S754_nan
      | S754_infinity _ => z
      | S754_zero _ => binary_round prec emax sp mp ep
      | S754_finite sz mz ez =>
          let e := Z.min ep ez in
          binary_normalize prec emax
            (Z.add (cond_Zopp sp (Zpos (fst (shl_align mp ep e))))
                   (cond_Zopp sz (Zpos (fst (shl_align mz ez e)))))
            e false
      end
  end.

Definition fma (x y z : float) : float :=
  SF2Prim (SFfma (Prim2SF x) (Prim2SF y) (Prim2SF z)).

(** [a.dot(b)] of two vectors of length 3: the BLAS loop
    [dot = 0.0; dot += b[i] * a[i]], each step one fused multiply-add. *)
Definition dot (a b : vec3) : float :=
  let '(a0, a1, a2) := a in
  let '(b0, b1, b2) := b in
  fma b2 a2 (fma b1 a1 (fma b0 a0 0%float)).

(** [np.linalg.norm(a)] of one vector: [sqrt(a.dot(a))]. *)
Definition norm_1d (a : vec3) : float := PrimFloat.sqrt (dot a a).

Definition tolist (a : vec3) : list float :=
  let '(a0, a1, a2) := a in [a0; a1; a2].

(** [str(i)] of a Python int. *)
Definition str_int (i : Z) : string := NilZero.string_of_int (Z.to_int i).

(** The message of numpy's IndexError for the index [i] on an array of
    length [n]. *)
Definition index_error (i : Z) (n : nat) : string :=
  ("index " ++ str_int i ++ " is out of bounds for axis 0 with size " ++ str_nat n)%string.

(** [a[i]] for an integer [i]: a negative index counts from the end, an index
    outside [-len(a), len(a))] raises IndexError. *)
Definition np_getitem {A : Type} (a : list A) (i : Z) : result A :=
  let n := Z.of_nat (length a) in
  let j := if (i <? 0)%Z then (i + n)%Z else i in
  if ((0 <=? j)%Z && (j <? n)%Z)%bool then
    match nth_error a (Z.to_nat j) with
    | Some x => Ok x
    | None => Raise (index_error i (length a))
    end
  else Raise (index_error i (length a)).

(** [np.argmin]: the index of the first minimum; a NaN counts as the minimum;
    ValueError on an empty array. *)
Fixpoint argmin_from (best_i : nat) (best : float) (i : nat) (a : list float) : nat :=
  match a with
  | [] => best_i
  | x :: a' =>
      if PrimFloat.is_nan best then best_i
      else if (PrimFloat.is_nan x || (x <? best)%float)%bool
           then argmin_from i x (S i) a'
           else argmin_from best_i best (S i) a'
  end.

Definition argmin (a : list float) : result nat :=
  match a with
  | [] => Raise "attempt to get argmin of an empty sequence"
  | x :: a' => Ok (argmin_from 0 x 1 a')
  end.

(** ** backend/models.py *)

Module models.

Inductive ValidationStatus : Set := ALLOW | ALLOW_WITH_WARNINGS | BLOCK.

Inductive ErrorCode : Set :=
| NOT_WATERTIGHT
| NON_MANIFOLD
| SELF_INTERSECTING
| THIN_WALL
| DEGENERATE_FACES
| DUPLICATE_VERTICES
| INVERTED_NORMALS
| MULTIPLE_COMPONENTS.

(** [Literal["error", "warning"]] *)
Inductive Severity : Set := error | warning.

Record ValidationIssue : Type := {
  code : ErrorCode;
  message : string;
  severity : Severity;
  count : option nat;
  locations : option (list (list (string * string)))
}.

Record MeshMetrics : Type := {
  triangles : nat;
  vertices : nat;
  components : nat;
  bbox_mm : list float;
  volume_mm3 : option float;
  surface_area_mm2 : option float;
  units : string
}.

Record ValidationReport : Type := {
  model_id : string;
  filename : string;
  metrics : MeshMetrics;
  errors : list ValidationIssue;
  warnings : list ValidationIssue;
  decision : ValidationStatus;
  processing_time_ms : float;
  timestamp : string
}.

Definition ErrorCode_eqb (a b : ErrorCode) : bool :=
  match a, b with
  | NOT_WATERTIGHT, NOT_WATERTIGHT
  | NON_MANIFOLD, NON_MANIFOLD
  | SELF_INTERSECTING, SELF_INTERSECTING
  | THIN_WALL, THIN_WALL
  | DEGENERATE_FACES, DEGENERATE_FACES
  | DUPLICATE_VERTICES, DUPLICATE_VERTICES
  | INVERTED_NORMALS, INVERTED_NORMALS
  | MULTIPLE_COMPONENTS, MULTIPLE_COMPONENTS => true
  | _, _ => false
  end.

Definition Severity_eqb (a b : Severity) : bool :=
  match a, b with
  | error, error | warning, warning => true
  | _, _ => false
  end.

End models.
Import models.

(** The constructor calls of the validator: [ValidationIssue(code=, message=,
    count=)] leaves [severity] and [locations] to their defaults, and
    [MeshMetrics(...)] leaves [units] to its default. *)
Definition ValidationIssue_ (code : ErrorCode) (message : string)
    (count : option nat) : ValidationIssue :=
  {| code := code; message := message; severity := error;
     count := count; locations := None |}.

Definition MeshMetrics_ (triangles vertices components : nat)
    (bbox_mm : list float) (volume_mm3 surface_area_mm2 : option float) : MeshMetrics :=
  {| triangles := triangles; vertices := vertices; components := components;
     bbox_mm := bbox_mm; volume_mm3 := volume_mm3;
     surface_area_mm2 := surface_area_mm2; units := "mm" |}.

(** ** The geometry library, as the validator sees it *)

Module trimesh.

(** An object returned by [trimesh.load] or held by a scene. [vertices] or
    [faces] is [None] when the object has no such attribute (a point cloud
    has no faces). The other fields are what the property returns or
    raises; [split] is the number of meshes returned by
    [mesh.split(only_watertight=False)], [open_boundaries] is [Some n] when
    the attribute exists and has length [n]. A [trimesh.Trimesh] has neither
    a [surface_area] nor an [open_boundaries] attribute: reading the first
    raises AttributeError, and the example meshes say so. *)
Record Trimesh : Type := {
  vertices : option (list vec3);
  faces : option (list (Z * Z * Z));
  bounds : result (option (vec3 * vec3));
  is_watertight : result bool;
  is_winding_consistent : result bool;
  open_boundaries : option nat;
  volume : result float;
  surface_area : result float;
  split : result nat
}.

(** What [trimesh.load] returns: a scene with its geometry values, or a
    single object. *)
Inductive Loaded : Type :=
| Scene (geometry : list Trimesh)
| Geometry (mesh : Trimesh).

End trimesh.
Abbreviation Trimesh := trimesh.Trimesh.

(** One run's environment: the uuid and the clock readings, and what
    [mesh.sample(n)] returns in this run (the sample is drawn at random, so it
    belongs to the run and not to the mesh). *)
Record Run : Type := {
  uuid4 : string;
  time_start : float;
  time_end : float;
  utcnow : string;
  sample : nat -> result (list vec3)
}.

(** ** backend/validator.py *)

Record MeshValidator : Type := {
  thin_wall_threshold : float;
  min_volume_threshold : float;
  max_file_size_mb : float
}.

(** [MeshValidator()] with the default thresholds. *)
Definition MeshValidator_default : MeshValidator :=
  {| thin_wall_threshold := 0.5; min_volume_threshold := 1.0;
     max_file_size_mb := 100.0 |}.

Definition getattr {A : Type} (name : string) (a : option A) : result A :=
  match a with
  | Some x => Ok x
  | None => Raise ("object has no attribute '" ++ name ++ "'")%string
  end.

Definition hasattr {A : Type} (a : option A) : bool :=
  match a with Some _ => true | None => false end.

(** [max(geometries, key=lambda x: len(x.vertices))]: the first geometry of
    greatest vertex count; every element has passed [hasattr(g, 'vertices')]. *)
Definition len_vertices (g : Trimesh) : nat :=
  match trimesh.vertices g with Some vs => length vs | None => 0 end.

Fixpoint max_by_vertices (best : Trimesh) (gs : list Trimesh) : Trimesh :=
  match gs with
  | [] => best
  | g :: gs' =>
      if len_vertices best <? len_vertices g
      then max_by_vertices g gs'
      else max_by_vertices best gs'
  end.

Definition _load_mesh_try (load : result trimesh.Loaded) : result Trimesh :=
  mesh <- load ;;
  mesh <- match mesh with
          | trimesh.Scene geometry =>
              let geometries := filter (fun g => hasattr (trimesh.vertices g)) geometry in
              match geometries with
              | [] => Raise "No valid meshes found in scene"
              | g :: gs => Ok (max_by_vertices g gs)
              end
          | trimesh.Geometry mesh => Ok mesh
          end ;;
  match trimesh.vertices mesh with
  | None => Raise "Empty or invalid mesh"
  | Some vs =>
      if length vs =? 0 then Raise "Empty or invalid mesh" else Ok mesh
  end.

Definition _load_mesh (load : result trimesh.Loaded) : result Trimesh :=
  match _load_mesh_try load with
  | Ok mesh => Ok mesh
  | Raise e => Raise ("Failed to load mesh: " ++ e)%string
  end.

Definition bbox_size_of (bbox : option (vec3 * vec3)) : result vec3 :=
  match bbox with
  | Some (lo, hi) => Ok (vsub hi lo)
  | None => Raise "'NoneType' object is not subscriptable"
  end.

Definition _compute_metrics_try (mesh : Trimesh) : result MeshMetrics :=
  fs <- getattr "faces" (trimesh.faces mesh) ;;
  let triangles := length fs in
  vs <- getattr "vertices" (trimesh.vertices mesh) ;;
  let vertices := length vs in
  bbox <- trimesh.bounds mesh ;;
  bbox_size <- bbox_size_of bbox ;;
  wt <- trimesh.is_watertight mesh ;;
  volume <- (if wt then v <- trimesh.volume mesh ;; Ok (Some v) else Ok None) ;;
  surface_area <- trimesh.surface_area mesh ;;
  components <- trimesh.split mesh ;;
  Ok (MeshMetrics_ triangles vertices components (tolist bbox_size)
        volume (Some surface_area)).

Definition _compute_metrics (mesh : Trimesh) : MeshMetrics :=
  match _compute_metrics_try mesh with
  | Ok m => m
  | Raise _ =>
      MeshMetrics_
        (match trimesh.faces mesh with Some fs => length fs | None => 0 end)
        (match trimesh.vertices mesh with Some vs => length vs | None => 0 end)
        1 [0; 0; 0]%float None None
  end.

(** [0.5 * np.linalg.norm(np.cross(v1 - v0, v2 - v0))] *)
Definition face_area (v0 v1 v2 : vec3) : float :=
  (0.5 * norm_1d (cross (vsub v1 v0) (vsub v2 v0)))%float.

Fixpoint degenerate_loop (vs : list vec3) (fs : list (Z * Z * Z)) (i : nat)
    (degenerate : list nat) : result (list nat) :=
  match fs with
  | [] => Ok degenerate
  | (a, b, c) :: fs' =>
      v0 <- np_getitem vs a ;;
      v1 <- np_getitem vs b ;;
      v2 <- np_getitem vs c ;;
      let area := face_area v0 v1 v2 in
      if (area <? 1e-10)%float
      then degenerate_loop vs fs' (S i) (degenerate ++ [i])
      else degenerate_loop vs fs' (S i) degenerate
  end.

Definition _find_degenerate_faces (mesh : Trimesh) : result (list nat) :=
  fs <- getattr "faces" (trimesh.faces mesh) ;;
  vs <- getattr "vertices" (trimesh.vertices mesh) ;;
  degenerate_loop vs fs 0 [].

(** The inner [for j in range(i + 1, len(vertices))] with its [break] is
    [existsb] over the vertices after [i]. *)
Fixpoint duplicate_loop (vs : list vec3) (i : nat) (duplicates : list nat) : list nat :=
  match vs with
  | [] => duplicates
  | vi :: vs' =>
      if existsb (fun vj => (norm_1d (vsub vi vj) <? 1e-6)%float) vs'
      then duplicate_loop vs' (S i) (duplicates ++ [i])
      else duplicate_loop vs' (S i) duplicates
  end.

Definition _find_duplicate_vertices (mesh : Trimesh) : result (list nat) :=
  vs <- getattr "vertices" (trimesh.vertices mesh) ;;
  Ok (duplicate_loop vs 0 []).

(** An entry of [thin_regions]: the point, the thickness and the location. *)
Definition thin_region : Type := (list float * float * string)%type.

(** [np.linalg.norm(mesh.vertices - point, axis=1)] *)
Definition distances (vs : list vec3) (point : vec3) : list float :=
  map (fun v => norm (vsub v point)) vs.

(** The loop of [_detect_thin_walls]; an exception inside it leaves the loop
    and keeps what [thin_regions] holds so far. *)
Fixpoint thin_loop (self : MeshValidator) (mesh : Trimesh) (points : list vec3)
    (thin_regions : list thin_region) : list thin_region :=
  match points with
  | [] => thin_regions
  | point :: points' =>
      match
        (vs <- getattr "vertices" (trimesh.vertices mesh) ;;
         let ds := distances vs point in
         nearest_idx <- argmin ds ;;
         Ok (nth nearest_idx ds nan))
      with
      | Raise _ => thin_regions
      | Ok distance =>
          if (distance <? thin_wall_threshold self)%float
          then thin_loop self mesh points'
                 (thin_regions ++ [(tolist point, distance, "surface")])
          else thin_loop self mesh points' thin_regions
      end
  end.

Definition _detect_thin_walls (self : MeshValidator) (mesh : Trimesh) (run : Run)
    : list thin_region :=
  match sample run 1000 with
  | Raise _ => []
  | Ok surface_points => thin_loop self mesh (firstn 10 surface_points) []
  end.

Definition _determine_decision (errors warnings : list ValidationIssue)
    : ValidationStatus :=
  if existsb (fun e => Severity_eqb (severity e) error) errors then BLOCK
  else match warnings with
       | _ :: _ => ALLOW_WITH_WARNINGS
       | [] => ALLOW
       end.

Section Pipeline.

(** [str(x)] of a Python float, as the f-string of the thin-wall message
    uses it; Python's float formatting is not modelled. *)
Variable str_float : float -> string.

Definition _run_validation_checks (self : MeshValidator) (mesh : Trimesh) (run : Run)
    : result (list ValidationIssue * list ValidationIssue) :=
  let errors : list ValidationIssue := [] in
  let warnings : list ValidationIssue := [] in
  (* Watertightness check *)
  wt <- trimesh.is_watertight mesh ;;
  let errors :=
    if negb wt
    then errors ++ [ValidationIssue_ NOT_WATERTIGHT
                      "Mesh is not watertight (has open boundaries)"
                      (trimesh.open_boundaries mesh)]
    else errors in
  (* Manifold check *)
  wc <- trimesh.is_winding_consistent mesh ;;
  let errors :=
    if negb wc
    then errors ++ [ValidationIssue_ NON_MANIFOLD "Mesh has non-manifold edges" None]
    else errors in
  (* Self-intersection check: try ... except Exception: pass *)
  let errors :=
    match trimesh.bounds mesh with
    | Ok (Some (lo, hi)) =>
        let bbox_size := vsub hi lo in
        if existsb (fun x => (x <? 1e-6)%float) (tolist bbox_size)
        then errors ++ [ValidationIssue_ SELF_INTERSECTING
                          "Mesh appears to have self-intersections or is extremely thin"
                          None]
        else errors
    | Ok None => errors
    | Raise _ => errors
    end in
  (* Multiple components check *)
  components <- trimesh.split mesh ;;
  let warnings :=
    if 1 <? components
    then warnings ++ [ValidationIssue_ MULTIPLE_COMPONENTS
                        ("Mesh has " ++ str_nat components ++ " disconnected components")%string
                        (Some components)]
    else warnings in
  (* Degenerate faces check *)
  degenerate_faces <- _find_degenerate_faces mesh ;;
  let errors :=
    if 0 <? length degenerate_faces
    then errors ++ [ValidationIssue_ DEGENERATE_FACES
                      ("Found " ++ str_nat (length degenerate_faces) ++ " degenerate faces")%string
                      (Some (length degenerate_faces))]
    else errors in
  (* Duplicate vertices check *)
  duplicate_vertices <- _find_duplicate_vertices mesh ;;
  let warnings :=
    if 0 <? length duplicate_vertices
    then warnings ++ [ValidationIssue_ DUPLICATE_VERTICES
                        ("Found " ++ str_nat (length duplicate_vertices) ++ " duplicate vertices")%string
                        (Some (length duplicate_vertices))]
    else warnings in
  (* Thin wall detection *)
  let thin_regions := _detect_thin_walls self mesh run in
  let warnings :=
    if 0 <? length thin_regions
    then warnings ++ [ValidationIssue_ THIN_WALL
                        ("Detected " ++ str_nat (length thin_regions)
                           ++ " regions with thickness < "
                           ++ str_float (thin_wall_threshold self) ++ "mm")%string
                        (Some (length thin_regions))]
    else warnings in
  Ok (errors, warnings).

(** The [try] block of [validate_mesh]. [load] is what
    [trimesh.load(file_path)] returns or raises for the file. *)
Definition validate_mesh_try (self : MeshValidator) (run : Run)
    (load : result trimesh.Loaded) (filename : string) : result ValidationReport :=
  mesh <- _load_mesh load ;;
  let metrics := _compute_metrics mesh in
  ew <- _run_validation_checks self mesh run ;;
  let '(errors, warnings) := ew in
  let decision := _determine_decision errors warnings in
  let processing_time := ((time_end run - time_start run) * 1000)%float in
  Ok {| model_id := uuid4 run; filename := filename; metrics := metrics;
        errors := errors; warnings := warnings; decision := decision;
        processing_time_ms := processing_time; timestamp := utcnow run |}.

Definition validate_mesh (self : MeshValidator) (run : Run)
    (load : result trimesh.Loaded) (filename : string) : ValidationReport :=
  match validate_mesh_try self run load filename with
  | Ok report => report
  | Raise e =>
      let processing_time := ((time_end run - time_start run) * 1000)%float in
      {| model_id := uuid4 run; filename := filename;
         metrics := MeshMetrics_ 0 0 0 [0; 0; 0]%float None None;
         errors := [ValidationIssue_ DEGENERATE_FACES
                      ("Failed to load mesh: " ++ e)%string None];
         warnings := [];
         decision := BLOCK;
         processing_time_ms := processing_time; timestamp := utcnow run |}
  end.

End Pipeline.

(** ** backend/main.py

    The endpoints, as functions of the report store. The store is the Python
    dict [reports_storage], kept as the list of its items in insertion
    order, which is the order in which [values()] iterates. An endpoint ends
    by returning a value, by raising an [HTTPException], or by letting
    another exception escape. [os.path] is [posixpath]; a file name is a
    string of bytes, of which [str.lower] changes the ASCII capitals (no
    character outside ASCII lower-cases to a letter of the allowed
    extensions). [tmp_file] is what the [with tempfile.NamedTemporaryFile]
    block gives: the path of the temporary file, or the OSError of its
    creation, of the read of the upload or of the write; [load] is what
    [trimesh.load] returns or raises for that file. The removal of the file
    in the [finally] clause swallows its own OSError and changes nothing. *)

Module main.
Import Ascii.

Inductive response (A : Type) : Type :=
| Returns (a : A)
| HTTPException (status_code : nat) (detail : string)
| Escapes (e : string).
Arguments Returns {A} a.
Arguments HTTPException {A} status_code detail.
Arguments Escapes {A} e.

Definition Dict : Type := list (string * ValidationReport).

(** [key in d] *)
Definition contains (d : Dict) (key : string) : bool :=
  existsb (fun item => String.eqb (fst item) key) d.

(** [d[key]], KeyError when the key is absent *)
Fixpoint getitem (d : Dict) (key : string) : result ValidationReport :=
  match d with
  | [] => Raise key
  | (k, v) :: d' => if String.eqb k key then Ok v else getitem d' key
  end.

(** [d[key] = value]: a present key keeps its place, a new key goes last *)
Fixpoint setitem (d : Dict) (key : string) (value : ValidationReport) : Dict :=
  match d with
  | [] => [(key, value)]
  | (k, v) :: d' =>
      if String.eqb k key then (k, value) :: d' else (k, v) :: setitem d' key value
  end.

(** [del d[key]], KeyError when the key is absent *)
Definition delitem (d : Dict) (key : string) : result Dict :=
  if contains d key
  then Ok (filter (fun item => negb (String.eqb (fst item) key)) d)
  else Raise key.

(** [p.rfind(c)]: the index of the last occurrence of [c], -1 without one *)
Fixpoint rfind_from (c : Ascii.ascii) (p : list Ascii.ascii) (i found : Z) : Z :=
  match p with
  | [] => found
  | x :: p' => rfind_from c p' (i + 1) (if Ascii.eqb x c then i else found)
  end.

Definition rfind (c : Ascii.ascii) (p : list Ascii.ascii) : Z := rfind_from c p 0 (-1).

(** [os.path.splitext]: the extension starts at the last dot of the last
    path component, unless only dots come before it in that component. *)
Definition splitext (p : string) : string * string :=
  let l := list_ascii_of_string p in
  let sepIndex := rfind "/"%char l in
  let dotIndex := rfind "."%char l in
  if (sepIndex <? dotIndex)%Z then
    let leading := firstn (Z.to_nat (dotIndex - (sepIndex + 1)))
                     (skipn (Z.to_nat (sepIndex + 1)) l) in
    if existsb (fun ch => negb (Ascii.eqb ch "."%char)) leading
    then (string_of_list_ascii (firstn (Z.to_nat dotIndex) l),
          string_of_list_ascii (skipn (Z.to_nat dotIndex) l))
    else (p, "")
  else (p, "").

Definition lower_ascii (ch : Ascii.ascii) : Ascii.ascii :=
  let n := Ascii.nat_of_ascii ch in
  if ((65 <=? n) && (n <=? 90))%bool then Ascii.ascii_of_nat (n + 32) else ch.

(** [s.lower()] *)
Definition lower (s : string) : string :=
  string_of_list_ascii (map lower_ascii (list_ascii_of_string s)).

(** The uploaded file: its name and [file.size], which may be [None]. *)
Record UploadFile : Type := {
  upload_filename : string;
  size : option N
}.

(** A row of the answer of [list_reports]. *)
Record ReportSummary : Type := {
  summary_model_id : string;
  summary_filename : string;
  summary_decision : ValidationStatus;
  summary_timestamp : string
}.

Definition allowed_extensions : list string := [".stl"; ".obj"; ".ply"].

Section Endpoints.

(** [str(x)] of a float, and the order in which the process iterates the set
    [allowed_extensions] (it depends on the hash seed of the process). *)
Variable str_float : float -> string.
Variable allowed_iteration : list string.

(** [validate_model]; [validator] is the module's [MeshValidator()]. The
    temporary file is written before the [try], so its OSError escapes; the
    [except Exception] around the validation turns an exception into status
    500. *)
Definition validate_model (reports_storage : Dict) (run : Run) (file : UploadFile)
    (tmp_file : result string) (load : result trimesh.Loaded)
    : response ValidationReport * Dict :=
  let file_extension := lower (snd (splitext (upload_filename file))) in
  if negb (existsb (String.eqb file_extension) allowed_extensions)
  then (HTTPException 400
          ("Unsupported file type. Allowed: "
             ++ String.concat ", " allowed_iteration)%string,
        reports_storage)
  else
    let max_size := (100 * 1024 * 1024)%N in
    if match size file with
       | Some n => (negb (n =? 0)%N && (max_size <? n)%N)%bool
       | None => false
       end
    then (HTTPException 413 "File too large. Maximum size: 100MB", reports_storage)
    else
      match tmp_file with
      | Raise e => (Escapes e, reports_storage)
      | Ok tmp_file_path =>
          match
            (report <- Ok (validate_mesh str_float MeshValidator_default run load
                             (upload_filename file)) ;;
             Ok (report, setitem reports_storage (model_id report) report))
          with
          | Ok (report, reports_storage) => (Returns report, reports_storage)
          | Raise e =>
              (HTTPException 500 ("Validation failed: " ++ e)%string, reports_storage)
          end
      end.

End Endpoints.

Definition get_report (reports_storage : Dict) (model_id : string)
    : response ValidationReport :=
  if negb (contains reports_storage model_id)
  then HTTPException 404 "Report not found"
  else match getitem reports_storage model_id with
       | Ok report => Returns report
       | Raise e => Escapes e
       end.

Definition list_reports (reports_storage : Dict) : list ReportSummary :=
  map (fun item =>
         let report := snd item in
         {| summary_model_id := model_id report;
            summary_filename := filename report;
            summary_decision := decision report;
            summary_timestamp := timestamp report |})
    reports_storage.

Definition delete_report (reports_storage : Dict) (model_id : string)
    : response string * Dict :=
  if negb (contains reports_storage model_id)
  then (HTTPException 404 "Report not found", reports_storage)
  else match delitem reports_storage model_id with
       | Ok reports_storage' => (Returns "Report deleted successfully", reports_storage')
       | Raise e => (Escapes e, reports_storage)
       end.

End main.

(** ** Example meshes

    The fields that describe the geometry library's answers are checked
    against reference predicates written after the glossary of the
    specification (watertight: every edge borders exactly two triangles;
    winding-consistent: the two triangles of an edge run through it in
    opposite directions; bounding box: per-axis minimum and maximum). The
    reference predicates are used on the example meshes only. *)

Module Reference.

Definition face_edges (f : Z * Z * Z) : list (Z * Z) :=
  let '(a, b, c) := f in [(a, b); (b, c); (c, a)].

Definition edge_eqb (e e' : Z * Z) : bool :=
  ((fst e =? fst e')%Z && (snd e =? snd e')%Z)%bool.

Definition flip (e : Z * Z) : Z * Z := (snd e, fst e).

Definition occurrences (e : Z * Z) (es : list (Z * Z)) : nat :=
  length (filter (edge_eqb e) es).

Definition is_watertight (fs : list (Z * Z * Z)) : bool :=
  let es := flat_map face_edges fs in
  forallb (fun e => occurrences e es + occurrences (flip e) es =? 2) es.

Definition is_winding_consistent (fs : list (Z * Z * Z)) : bool :=
  let es := flat_map face_edges fs in
  forallb (fun e => occurrences e es <=? 1) es.

Definition fmin (a b : float) : float := if (b <? a)%float then b else a.
Definition fmax (a b : float) : float := if (a <? b)%float then b else a.

Definition bounds (vs : list vec3) : option (vec3 * vec3) :=
  match vs with
  | [] => None
  | v :: vs' =>
      Some (fold_left
              (fun '((l0, l1, l2), (h0, h1, h2)) '(x, y, z) =>
                 ((fmin l0 x, fmin l1 y, fmin l2 z), (fmax h0 x, fmax h1 y, fmax h2 z)))
              vs' (v, v))
  end.

(** The description [mesh] gives of a closed, consistently wound surface
    agrees with its vertex and face data. *)
Definition describes_closed_surface (mesh : Trimesh) : bool :=
  match trimesh.vertices mesh, trimesh.faces mesh, trimesh.bounds mesh,
        trimesh.is_watertight mesh, trimesh.is_winding_consistent mesh with
  | Some vs, Some fs, Ok (Some (lo, hi)), Ok true, Ok true =>
      (is_watertight fs && is_winding_consistent fs &&
       match bounds vs with
       | Some (lo', hi') =>
           forallb (fun d => (d =? 0)%float) (tolist (vsub lo lo') ++ tolist (vsub hi hi'))
       | None => false
       end)%bool
  | _, _, _, _, _ => false
  end.

End Reference.

Module Examples.

(** [trimesh.creation.box(extents=[10, 10, 10])] *)
Definition cube_vertices : list vec3 :=
  [(-5, -5, -5); (-5, -5, 5); (-5, 5, -5); (-5, 5, 5);
   (5, -5, -5); (5, -5, 5); (5, 5, -5); (5, 5, 5)]%float.

Definition cube_faces : list (Z * Z * Z) :=
  [(1, 3, 0); (4, 1, 0); (0, 3, 2); (2, 4, 0); (1, 7, 3); (5, 1, 4);
   (5, 7, 1); (3, 7, 2); (6, 4, 2); (2, 7, 6); (6, 5, 4); (7, 5, 6)]%Z.

Definition cube : Trimesh :=
  {| trimesh.vertices := Some cube_vertices;
     trimesh.faces := Some cube_faces;
     trimesh.bounds := Ok (Some ((-5, -5, -5), (5, 5, 5)))%float;
     trimesh.is_watertight := Ok true;
     trimesh.is_winding_consistent := Ok true;
     trimesh.open_boundaries := None;
     trimesh.volume := Ok 1000%float;
     trimesh.surface_area := Raise "'Trimesh' object has no attribute 'surface_area'";
     trimesh.split := Ok 1 |}.

(** A tetrahedron of base 10 x 10 whose apex rises 5e-7 above the base
    plane: closed, consistently wound, one component, vertices at least 10
    apart, every face of area about 50. *)
Definition flat_tetra : Trimesh :=
  {| trimesh.vertices := Some [(0, 0, 0); (10, 0, 0); (0, 10, 0); (10, 10, 5e-7)]%float;
     trimesh.faces := Some [(0, 2, 1); (0, 1, 3); (1, 2, 3); (2, 0, 3)]%Z;
     trimesh.bounds := Ok (Some ((0, 0, 0), (10, 10, 5e-7)))%float;
     trimesh.is_watertight := Ok true;
     trimesh.is_winding_consistent := Ok true;
     trimesh.open_boundaries := None;
     trimesh.volume := Ok 8.333333333333334e-6%float;
     trimesh.surface_area := Raise "'Trimesh' object has no attribute 'surface_area'";
     trimesh.split := Ok 1 |}.

(** A tetrahedron with legs of 0.25 mm: every point of its surface is
    within 0.5 mm of a vertex. *)
Definition small_tetra : Trimesh :=
  {| trimesh.vertices := Some [(0, 0, 0); (0.25, 0, 0); (0, 0.25, 0); (0, 0, 0.25)]%float;
     trimesh.faces := Some [(0, 2, 1); (0, 1, 3); (1, 2, 3); (2, 0, 3)]%Z;
     trimesh.bounds := Ok (Some ((0, 0, 0), (0.25, 0.25, 0.25)))%float;
     trimesh.is_watertight := Ok true;
     trimesh.is_winding_consistent := Ok true;
     trimesh.open_boundaries := None;
     trimesh.volume := Ok 0.0026041666666666665%float;
     trimesh.surface_area := Raise "'Trimesh' object has no attribute 'surface_area'";
     trimesh.split := Ok 1 |}.

(** Two tetrahedra with legs of 10 mm, 100 mm apart. *)
Definition two_shells : Trimesh :=
  {| trimesh.vertices :=
       Some [(0, 0, 0); (10, 0, 0); (0, 10, 0); (0, 0, 10);
             (100, 0, 0); (110, 0, 0); (100, 10, 0); (100, 0, 10)]%float;
     trimesh.faces :=
       Some [(0, 2, 1); (0, 1, 3); (1, 2, 3); (2, 0, 3);
             (4, 6, 5); (4, 5, 7); (5, 6, 7); (6, 4, 7)]%Z;
     trimesh.bounds := Ok (Some ((0, 0, 0), (110, 10, 10)))%float;
     trimesh.is_watertight := Ok true;
     trimesh.is_winding_consistent := Ok true;
     trimesh.open_boundaries := None;
     trimesh.volume := Ok 333.3333333333333%float;
     trimesh.surface_area := Raise "'Trimesh' object has no attribute 'surface_area'";
     trimesh.split := Ok 2 |}.

(** A triangle pair whose first face has its three vertices on a line; both
    faces run through the edge 0-1 in the same direction. *)
Definition sliver : Trimesh :=
  {| trimesh.vertices := Some [(0, 0, 0); (1, 0, 0); (2, 0, 0); (0, 1, 5)]%float;
     trimesh.faces := Some [(0, 1, 2); (0, 1, 3)]%Z;
     trimesh.bounds := Ok (Some ((0, 0, 0), (2, 1, 5)))%float;
     trimesh.is_watertight := Ok false;
     trimesh.is_winding_consistent := Ok false;
     trimesh.open_boundaries := None;
     trimesh.volume := Ok 0%float;
     trimesh.surface_area := Raise "'Trimesh' object has no attribute 'surface_area'";
     trimesh.split := Ok 1 |}.

(** A triangle fan with three coincident vertices (indices 0, 1 and 3). *)
Definition coincident_vertices : list vec3 :=
  [(0, 0, 0); (0, 0, 0); (10, 0, 0); (0, 0, 0); (0, 10, 5)]%float.

Definition coincident : Trimesh :=
  {| trimesh.vertices := Some coincident_vertices;
     trimesh.faces := Some [(0, 2, 4); (1, 2, 4); (3, 2, -1)]%Z;
     trimesh.bounds := Ok (Some ((0, 0, 0), (10, 10, 5)))%float;
     trimesh.is_watertight := Ok false;
     trimesh.is_winding_consistent := Ok false;
     trimesh.open_boundaries := None;
     trimesh.volume := Ok 0%float;
     trimesh.surface_area := Raise "'Trimesh' object has no attribute 'surface_area'";
     trimesh.split := Ok 2 |}.

(** A scene of a point cloud without faces, the cube and the small
    tetrahedron. *)
Definition point_cloud : Trimesh :=
  {| trimesh.vertices := Some [(0, 0, 0); (1, 0, 0)]%float;
     trimesh.faces := None;
     trimesh.bounds := Ok (Some ((0, 0, 0), (1, 0, 0)))%float;
     trimesh.is_watertight := Raise "'PointCloud' object has no attribute 'is_watertight'";
     trimesh.is_winding_consistent :=
       Raise "'PointCloud' object has no attribute 'is_winding_consistent'";
     trimesh.open_boundaries := None;
     trimesh.volume := Raise "'PointCloud' object has no attribute 'volume'";
     trimesh.surface_area := Raise "'PointCloud' object has no attribute 'surface_area'";
     trimesh.split := Raise "'PointCloud' object has no attribute 'split'" |}.

Definition scene : list Trimesh := [point_cloud; cube; small_tetra].

(** A run whose surface sample is [points]. *)
Definition run_sampling (id : string) (points : result (list vec3)) : Run :=
  {| uuid4 := id; time_start := 100; time_end := 100.25;
     utcnow := "2024-01-01T00:00:00"; sample := fun _ => points |}.

(** Sample points at the centres of faces, and one near a corner. *)
Definition cube_face_centres : list vec3 :=
  [(5, 0, 0); (0, 5, 0); (0, 0, 5); (-5, 0, 0); (0, -5, 0); (0, 0, -5)]%float.
Definition cube_near_corner : list vec3 := [(5, 4.9, 4.9)]%float.

Definition str_float (x : float) : string := "0.5".

(** An issue placed by hand in an errors list, with severity "warning". *)
Definition warning_issue : ValidationIssue :=
  {| code := THIN_WALL; message := "Test warning"; severity := warning;
     count := None; locations := None |}.

Definition error_issue_a : ValidationIssue :=
  ValidationIssue_ NOT_WATERTIGHT "Test error" None.
Definition error_issue_b : ValidationIssue :=
  ValidationIssue_ NON_MANIFOLD "Test error" None.

(** An upload of the cube, and the report and the store that
    [validate_model] gives for it from an empty store. *)
Definition cube_upload : main.UploadFile :=
  {| main.upload_filename := "Cube.STL"; main.size := Some 684%N |}.

Definition cube_report : ValidationReport :=
  validate_mesh str_float MeshValidator_default
    (run_sampling "run-1" (Ok cube_face_centres)) (Ok (trimesh.Geometry cube)) "Cube.STL".

Definition allowed_iteration : list string := [".ply"; ".stl"; ".obj"].

End Examples.

(** * Vocabulary of the properties *)

(** Some issue of the list has severity "error". *)
Definition has_error_severity (issues : list ValidationIssue) : bool :=
  existsb (fun e => Severity_eqb (severity e) error) issues.

(** The report of the [except] branch of [validate_mesh]. *)
Definition failure_report (run : Run) (filename e : string) : ValidationReport :=
  {| model_id := uuid4 run; filename := filename;
     metrics := MeshMetrics_ 0 0 0 [0; 0; 0]%float None None;
     errors := [ValidationIssue_ DEGENERATE_FACES ("Failed to load mesh: " ++ e)%string None];
     warnings := [];
     decision := BLOCK;
     processing_time_ms := ((time_end run - time_start run) * 1000)%float;
     timestamp := utcnow run |}.

(** The index [i] names an element of [a]. *)
Definition index_ok {A : Type} (a : list A) (i : Z) : bool :=
  match np_getitem a i with Ok _ => true | Raise _ => false end.

(** Every face index names a vertex. *)
Definition valid_faces (vs : list vec3) (fs : list (Z * Z * Z)) : bool :=
  forallb (fun '(a, b, c) => index_ok vs a && index_ok vs b && index_ok vs c)%bool fs.

(** The message of the first face index that numpy refuses, if there is
    one. *)
Fixpoint first_index_error (vs : list vec3) (fs : list (Z * Z * Z)) : option string :=
  match fs with
  | [] => None
  | (a, b, c) :: fs' =>
      match np_getitem vs a, np_getitem vs b, np_getitem vs c with
      | Raise e, _, _ => Some e
      | Ok _, Raise e, _ => Some e
      | Ok _, Ok _, Raise e => Some e
      | Ok _, Ok _, Ok _ => first_index_error vs fs'
      end
  end.

(** The triangle [f] over the vertices [vs] has area below 1e-10. *)
Definition is_degenerate (vs : list vec3) (f : Z * Z * Z) : bool :=
  let '(a, b, c) := f in
  match np_getitem vs a, np_getitem vs b, np_getitem vs c with
  | Ok v0, Ok v1, Ok v2 => (face_area v0 v1 v2 <? 1e-10)%float
  | _, _, _ => false
  end.

(** The positions, counted from [i], of the degenerate triangles of [fs]. *)
Fixpoint degenerate_indices (vs : list vec3) (fs : list (Z * Z * Z)) (i : nat) : list nat :=
  match fs with
  | [] => []
  | f :: fs' =>
      if is_degenerate vs f then i :: degenerate_indices vs fs' (S i)
      else degenerate_indices vs fs' (S i)
  end.

(** Two vertices lie within 1e-6 of each other. *)
Definition near (vi vj : vec3) : bool := (norm_1d (vsub vi vj) <? 1e-6)%float.

(** No two distinct vertices lie within 1e-6 of each other. *)
Definition no_near_duplicates (vs : list vec3) : Prop :=
  ForallOrdPairs (fun vi vj => near vi vj = false) vs.

(** The extent of the bounding box is below 1e-6 on some axis: the trigger of
    the self-intersection proxy. *)
Definition self_intersecting_proxy (mesh : Trimesh) : bool :=
  match trimesh.bounds mesh with
  | Ok (Some (lo, hi)) => existsb (fun x => (x <? 1e-6)%float) (tolist (vsub hi lo))
  | Ok None => false
  | Raise _ => false
  end.

(** The distance from [point] to its nearest vertex, as [np.argmin] finds it;
    none when there is no vertex. *)
Definition nearest_distance (vs : list vec3) (point : vec3) : option float :=
  let ds := distances vs point in
  match argmin ds with
  | Ok nearest_idx => Some (nth nearest_idx ds nan)
  | Raise _ => None
  end.

(** The nearest vertex of [point] lies closer than the thin-wall threshold. *)
Definition is_thin (self : MeshValidator) (vs : list vec3) (point : vec3) : bool :=
  match nearest_distance vs point with
  | Some d => (d <? thin_wall_threshold self)%float
  | None => false
  end.

(** The sample points the thin-wall check evaluates in a run: the first 10 of
    what [mesh.sample(1000)] returns, none when sampling fails. *)
Definition evaluated_points (run : Run) : list vec3 :=
  match sample run 1000 with
  | Ok surface_points => firstn 10 surface_points
  | Raise _ => []
  end.

(** Some sub-computation of the [try] block of [_compute_metrics] raises, for
    a mesh that has vertices and faces. [bounds] being [None] makes
    [bbox[1]] raise; [volume] is read on a watertight mesh only. *)
Definition metric_subcomputation_raises (mesh : Trimesh) : Prop :=
  (exists e, trimesh.bounds mesh = Raise e) \/
  trimesh.bounds mesh = Ok None \/
  (exists e, trimesh.is_watertight mesh = Raise e) \/
  (trimesh.is_watertight mesh = Ok true /\ exists e, trimesh.volume mesh = Raise e) \/
  (exists e, trimesh.surface_area mesh = Raise e) \/
  (exists e, trimesh.split mesh = Raise e).

(** [l] lists some of the codes of [order], in the order of [order]. *)
Fixpoint subseqb (l order : list ErrorCode) : bool :=
  match order with
  | [] => match l with [] => true | _ :: _ => false end
  | c :: order' =>
      match l with
      | [] => true
      | x :: l' => if ErrorCode_eqb x c then subseqb l' order' else subseqb l order'
      end
  end.

(** The issues of the check engine, by check. *)
Definition errors_of (mesh : Trimesh) (wt wc : bool) (degenerate_faces : list nat)
    : list ValidationIssue :=
  (if negb wt
   then [ValidationIssue_ NOT_WATERTIGHT "Mesh is not watertight (has open boundaries)"
           (trimesh.open_boundaries mesh)]
   else []) ++
  (if negb wc
   then [ValidationIssue_ NON_MANIFOLD "Mesh has non-manifold edges" None]
   else []) ++
  (if self_intersecting_proxy mesh
   then [ValidationIssue_ SELF_INTERSECTING
           "Mesh appears to have self-intersections or is extremely thin" None]
   else []) ++
  (if 0 <? length degenerate_faces
   then [ValidationIssue_ DEGENERATE_FACES
           ("Found " ++ str_nat (length degenerate_faces) ++ " degenerate faces")%string
           (Some (length degenerate_faces))]
   else []).

Definition thin_wall_issues (str_float : float -> string) (self : MeshValidator)
    (n : nat) : list ValidationIssue :=
  if 0 <? n
  then [ValidationIssue_ THIN_WALL
          ("Detected " ++ str_nat n ++ " regions with thickness < "
             ++ str_float (thin_wall_threshold self) ++ "mm")%string
          (Some n)]
  else [].

Definition warnings_of (str_float : float -> string) (self : MeshValidator)
    (components : nat) (duplicate_vertices : list nat) (thin_regions : list thin_region)
    : list ValidationIssue :=
  (if 1 <? components
   then [ValidationIssue_ MULTIPLE_COMPONENTS
           ("Mesh has " ++ str_nat components ++ " disconnected components")%string
           (Some components)]
   else []) ++
  (if 0 <? length duplicate_vertices
   then [ValidationIssue_ DUPLICATE_VERTICES
           ("Found " ++ str_nat (length duplicate_vertices) ++ " duplicate vertices")%string
           (Some (length duplicate_vertices))]
   else []) ++
  thin_wall_issues str_float self (length thin_regions).

(** The condition under which the check engine emits the code [c], for the
    checks that it runs to completion. The code INVERTED_NORMALS has no check. *)
Definition triggered (self : MeshValidator) (mesh : Trimesh) (run : Run)
    (c : ErrorCode) : bool :=
  match c with
  | NOT_WATERTIGHT =>
      match trimesh.is_watertight mesh with Ok wt => negb wt | Raise _ => false end
  | NON_MANIFOLD =>
      match trimesh.is_winding_consistent mesh with Ok wc => negb wc | Raise _ => false end
  | SELF_INTERSECTING => self_intersecting_proxy mesh
  | DEGENERATE_FACES =>
      match _find_degenerate_faces mesh with
      | Ok degenerate_faces => 0 <? length degenerate_faces
      | Raise _ => false
      end
  | MULTIPLE_COMPONENTS =>
      match trimesh.split mesh with Ok components => 1 <? components | Raise _ => false end
  | DUPLICATE_VERTICES =>
      match _find_duplicate_vertices mesh with
      | Ok duplicate_vertices => 0 <? length duplicate_vertices
      | Raise _ => false
      end
  | THIN_WALL => 0 <? length (_detect_thin_walls self mesh run)
  | INVERTED_NORMALS => false
  end.

Definition error_order : list ErrorCode :=
  [NOT_WATERTIGHT; NON_MANIFOLD; SELF_INTERSECTING; DEGENERATE_FACES].
Definition warning_order : list ErrorCode :=
  [MULTIPLE_COMPONENTS; DUPLICATE_VERTICES; THIN_WALL].

Definition has_code (c : ErrorCode) (issue : ValidationIssue) : bool :=
  ErrorCode_eqb (code issue) c.

(** The same object with another answer for [bounds], the same run with
    another surface sample. *)
Definition with_bounds (mesh : Trimesh) (b : result (option (vec3 * vec3))) : Trimesh :=
  {| trimesh.vertices := trimesh.vertices mesh;
     trimesh.faces := trimesh.faces mesh;
     trimesh.bounds := b;
     trimesh.is_watertight := trimesh.is_watertight mesh;
     trimesh.is_winding_consistent := trimesh.is_winding_consistent mesh;
     trimesh.open_boundaries := trimesh.open_boundaries mesh;
     trimesh.volume := trimesh.volume mesh;
     trimesh.surface_area := trimesh.surface_area mesh;
     trimesh.split := trimesh.split mesh |}.

Definition with_sample (run : Run) (s : nat -> result (list vec3)) : Run :=
  {| uuid4 := uuid4 run; time_start := time_start run; time_end := time_end run;
     utcnow := utcnow run; sample := s |}.

(** The positions, counted from [i], of the vertices of [vs] that have a
    later vertex within 1e-6. *)
Fixpoint duplicate_indices (vs : list vec3) (i : nat) : list nat :=
  match vs with
  | [] => []
  | vi :: vs' =>
      if existsb (near vi) vs' then i :: duplicate_indices vs' (S i)
      else duplicate_indices vs' (S i)
  end.

(** The entry of [thin_regions] for a thin sample point. *)
Definition region_of (vs : list vec3) (point : vec3) : thin_region :=
  (tolist point,
   match nearest_distance vs point with Some d => d | None => nan end,
   "surface").

(** The index [i] is one that numpy accepts for an array of length [n]. *)
Definition in_range (n : nat) (i : Z) : Prop := (- Z.of_nat n <= i < Z.of_nat n)%Z.

Definition face_in_range (n : nat) (f : Z * Z * Z) : Prop :=
  let '(a, b, c) := f in in_range n a /\ in_range n b /\ in_range n c.

(** The representation invariant of the report store: the keys are
    distinct, and each report is stored under its own id. *)
Definition store_ok (d : main.Dict) : Prop :=
  NoDup (map fst d) /\ Forall (fun item => fst item = model_id (snd item)) d.

(** * Properties *)

(** ** The decision aggregator *)

Lemma Severity_eqb_eq (a b : Severity) : Severity_eqb a b = true <-> a = b.
Proof. destruct a, b; simpl; split; intro H; congruence. Qed.

Lemma ErrorCode_eqb_eq (a b : ErrorCode) : ErrorCode_eqb a b = true <-> a = b.
Proof. destruct a, b; simpl; split; intro H; congruence. Qed.

Lemma has_error_severity_Exists (issues : list ValidationIssue) :
  has_error_severity issues = true <-> Exists (fun e => severity e = error) issues.
Proof.
  unfold has_error_severity. rewrite existsb_exists, Exists_exists.
  split; intros [e [Hin He]]; exists e; split; auto; now apply Severity_eqb_eq.
Qed.

Lemma has_error_severity_perm (l l' : list ValidationIssue) :
  Permutation l l' -> has_error_severity l = has_error_severity l'.
Proof.
  intro P. induction P; simpl; auto.
  - now rewrite IHP.
  - now rewrite !orb_assoc, (orb_comm (Severity_eqb (severity y) error)).
  - congruence.
Qed.

Lemma has_error_severity_all_error (l : list ValidationIssue) :
  Forall (fun e => severity e = error) l ->
  has_error_severity l = match l with [] => false | _ :: _ => true end.
Proof.
  intros H. destruct H as [|e l He _]; simpl; auto. now rewrite He.
Qed.

(** C1, on the code: an errors list holding only issues of severity
    "warning" does not block. *)
Lemma determine_decision_ignores_warning_severity :
  _determine_decision [Examples.warning_issue] [] = ALLOW.
Proof. reflexivity. Qed.

(** C1, as amended: the decision is BLOCK if and only if the errors list
    holds an issue of severity "error"; otherwise ALLOW_WITH_WARNINGS if and
    only if the warnings list is non-empty; otherwise ALLOW. It depends on the
    two lists only, and not on their order. Where every issue of the errors
    list has severity "error", BLOCK if and only if that list is non-empty. *)
Theorem determine_decision_spec (errors warnings : list ValidationIssue) :
  (_determine_decision errors warnings = BLOCK
     <-> Exists (fun e => severity e = error) errors) /\
  (_determine_decision errors warnings = ALLOW_WITH_WARNINGS
     <-> ~ Exists (fun e => severity e = error) errors /\ warnings <> []) /\
  (_determine_decision errors warnings = ALLOW
     <-> ~ Exists (fun e => severity e = error) errors /\ warnings = []) /\
  (forall errors' warnings',
     Permutation errors errors' -> Permutation warnings warnings' ->
     _determine_decision errors' warnings' = _determine_decision errors warnings) /\
  (Forall (fun e => severity e = error) errors ->
     (_determine_decision errors warnings = BLOCK <-> errors <> [])).
Proof.
  pose proof (has_error_severity_Exists errors) as HE.
  assert (Hperm : forall errors' warnings',
             Permutation errors errors' -> Permutation warnings warnings' ->
             _determine_decision errors' warnings' = _determine_decision errors warnings).
  { intros errors' warnings' Pe Pw. unfold _determine_decision.
    fold (has_error_severity errors) (has_error_severity errors').
    rewrite (has_error_severity_perm _ _ Pe).
    destruct (has_error_severity errors'); [reflexivity|].
    destruct warnings as [|w ws].
    - apply Permutation_nil in Pw. now rewrite Pw.
    - destruct warnings'; [|reflexivity].
      apply Permutation_sym, Permutation_nil in Pw. discriminate. }
  assert (Hall : Forall (fun e => severity e = error) errors ->
                 (_determine_decision errors warnings = BLOCK <-> errors <> [])).
  { intro H. unfold _determine_decision. fold (has_error_severity errors).
    rewrite (has_error_severity_all_error _ H).
    destruct errors; destruct warnings; split; intro X; congruence. }
  split; [|split; [|split; [|split]]]; auto;
    unfold _determine_decision; fold (has_error_severity errors);
    destruct (has_error_severity errors) eqn:E; destruct warnings as [|w ws];
    (split;
     [ intro X; try discriminate X; try (now apply HE);
       split; try congruence; intro Y; apply HE in Y; congruence
     | intro X; try reflexivity;
       try (apply HE in X; congruence);
       destruct X as [Xn Xw]; try congruence;
       exfalso; apply Xn; now apply HE ]).
Qed.

Lemma determine_decision_spec_witness :
  _determine_decision [Examples.error_issue_b; Examples.error_issue_a] [Examples.warning_issue]
  = _determine_decision [Examples.error_issue_a; Examples.error_issue_b] [Examples.warning_issue].
Proof.
  destruct (determine_decision_spec [Examples.error_issue_a; Examples.error_issue_b] [Examples.warning_issue])
    as (_ & _ & _ & Hperm & _).
  apply Hperm.
  - apply perm_swap.
  - apply Permutation_refl.
Defined.

(** ** Loading *)

Lemma load_mesh_prefix (load : result trimesh.Loaded) (e : string) :
  _load_mesh load = Raise e ->
  exists e0, _load_mesh_try load = Raise e0 /\ e = ("Failed to load mesh: " ++ e0)%string.
Proof.
  unfold _load_mesh. destruct (_load_mesh_try load) as [m|e0]; [discriminate|].
  intro H. injection H as <-. now exists e0.
Qed.

(** The three ways of failing to parse: [trimesh.load] raises, the object has
    no vertex, the scene has no geometry. *)
Lemma load_mesh_failure_modes :
  (forall e, _load_mesh (Raise e) = Raise ("Failed to load mesh: " ++ e)%string) /\
  (forall g, len_vertices g = 0 ->
     _load_mesh (Ok (trimesh.Geometry g)) = Raise "Failed to load mesh: Empty or invalid mesh") /\
  (forall gs, Forall (fun g => trimesh.vertices g = None) gs ->
     _load_mesh (Ok (trimesh.Scene gs))
     = Raise "Failed to load mesh: No valid meshes found in scene").
Proof.
  repeat split.
  - intros g Hg. unfold _load_mesh, _load_mesh_try, len_vertices in *. simpl.
    destruct (trimesh.vertices g) as [vs|]; [|reflexivity].
    now rewrite Hg.
  - intros gs Hgs. unfold _load_mesh, _load_mesh_try. simpl.
    replace (filter (fun g => hasattr (trimesh.vertices g)) gs) with (@nil Trimesh);
      [reflexivity|].
    induction Hgs as [|g gs Hg _ IH]; simpl; [reflexivity|].
    now rewrite Hg.
Qed.

(** A mesh that [_load_mesh] returns has at least one vertex. *)
Lemma load_mesh_has_vertices (load : result trimesh.Loaded) (mesh : Trimesh) :
  _load_mesh load = Ok mesh ->
  exists v vs, trimesh.vertices mesh = Some (v :: vs).
Proof.
  unfold _load_mesh, _load_mesh_try, bind.
  destruct load as [[gs|g]|e]; try discriminate.
  - destruct (filter _ gs) as [|g0 gs0]; [discriminate|].
    destruct (trimesh.vertices (max_by_vertices g0 gs0)) as [[|v vs]|] eqn:E;
      simpl; try discriminate.
    intro H. injection H as <-. eauto.
  - destruct (trimesh.vertices g) as [[|v vs]|] eqn:E; simpl; try discriminate.
    intro H. injection H as <-. eauto.
Qed.

(** C2: when the file fails to parse, [validate_mesh] returns a report with
    triangle, vertex and component counts of 0 and a zero bounding box, an
    errors list of exactly one issue coded DEGENERATE_FACES that carries the
    failure message, no warning, and the decision BLOCK. [validate_mesh] is a
    total function: the exceptions of its stages end in its [except] branch. *)
Theorem validate_mesh_parse_failure (str_float : float -> string)
    (self : MeshValidator) (run : Run) (load : result trimesh.Loaded)
    (filename e : string) :
  _load_mesh load = Raise e ->
  let report := validate_mesh str_float self run load filename in
  triangles (metrics report) = 0 /\
  vertices (metrics report) = 0 /\
  components (metrics report) = 0 /\
  bbox_mm (metrics report) = [0; 0; 0]%float /\
  errors report = [ValidationIssue_ DEGENERATE_FACES ("Failed to load mesh: " ++ e)%string None] /\
  warnings report = [] /\
  decision report = BLOCK.
Proof.
  intros H report. subst report.
  unfold validate_mesh, validate_mesh_try. rewrite H. simpl.
  repeat split.
Qed.

Lemma validate_mesh_parse_failure_witness :
  let report :=
    validate_mesh Examples.str_float MeshValidator_default
      (Examples.run_sampling "run-1" (Ok [])) (Raise "unsupported file") "invalid.stl" in
  triangles (metrics report) = 0 /\
  vertices (metrics report) = 0 /\
  components (metrics report) = 0 /\
  bbox_mm (metrics report) = [0; 0; 0]%float /\
  errors report =
    [ValidationIssue_ DEGENERATE_FACES
       "Failed to load mesh: Failed to load mesh: unsupported file" None] /\
  warnings report = [] /\
  decision report = BLOCK.
Proof.
  apply (validate_mesh_parse_failure Examples.str_float MeshValidator_default
           (Examples.run_sampling "run-1" (Ok [])) (Raise "unsupported file") "invalid.stl"
           "Failed to load mesh: unsupported file").
  reflexivity.
Defined.

(** ** Metrics *)

Lemma compute_metrics_try_raises (mesh : Trimesh) (vs : list vec3) (fs : list (Z * Z * Z)) :
  trimesh.vertices mesh = Some vs ->
  trimesh.faces mesh = Some fs ->
  metric_subcomputation_raises mesh ->
  exists e, _compute_metrics_try mesh = Raise e.
Proof.
  intros Hv Hf H. unfold _compute_metrics_try. rewrite Hv, Hf. simpl.
  destruct H as [[e H]|[H|[[e H]|[[Hw [e H]]|[[e H]|[e H]]]]]].
  - rewrite H. simpl. eauto.
  - rewrite H. simpl. eauto.
  - destruct (trimesh.bounds mesh) as [[[lo hi]|]|e0]; simpl; eauto.
    rewrite H. simpl. eauto.
  - destruct (trimesh.bounds mesh) as [[[lo hi]|]|e0]; simpl; eauto.
    rewrite Hw. simpl. rewrite H. simpl. eauto.
  - destruct (trimesh.bounds mesh) as [[[lo hi]|]|e0]; simpl; eauto.
    destruct (trimesh.is_watertight mesh) as [[|]|e0]; simpl; eauto.
    + destruct (trimesh.volume mesh); simpl; eauto. rewrite H. simpl. eauto.
    + rewrite H. simpl. eauto.
  - destruct (trimesh.bounds mesh) as [[[lo hi]|]|e0]; simpl; eauto.
    destruct (trimesh.is_watertight mesh) as [[|]|e0]; simpl; eauto.
    + destruct (trimesh.volume mesh); simpl; eauto.
      destruct (trimesh.surface_area mesh); simpl; eauto.
      rewrite H. simpl. eauto.
    + destruct (trimesh.surface_area mesh); simpl; eauto.
      rewrite H. simpl. eauto.
Qed.

(** C6: when a sub-computation of the metrics raises, [_compute_metrics]
    returns the triangle and vertex counts of the mesh, a component count of
    1 and a zero bounding box; it is a total function, so nothing is raised
    out of the metrics stage. *)
Theorem compute_metrics_degrades (mesh : Trimesh) (vs : list vec3) (fs : list (Z * Z * Z)) :
  trimesh.vertices mesh = Some vs ->
  trimesh.faces mesh = Some fs ->
  metric_subcomputation_raises mesh ->
  _compute_metrics mesh =
    {| triangles := length fs; vertices := length vs; components := 1;
       bbox_mm := [0; 0; 0]%float; volume_mm3 := None; surface_area_mm2 := None;
       units := "mm" |}.
Proof.
  intros Hv Hf H.
  destruct (compute_metrics_try_raises mesh vs fs Hv Hf H) as [e He].
  unfold _compute_metrics. rewrite He, Hv, Hf. reflexivity.
Qed.

Lemma compute_metrics_degrades_witness :
  _compute_metrics (with_bounds Examples.cube (Raise "bounds failed")) =
    {| triangles := 12; vertices := 8; components := 1;
       bbox_mm := [0; 0; 0]%float; volume_mm3 := None; surface_area_mm2 := None;
       units := "mm" |}.
Proof.
  apply (compute_metrics_degrades (with_bounds Examples.cube (Raise "bounds failed"))
           Examples.cube_vertices Examples.cube_faces).
  - reflexivity.
  - reflexivity.
  - left. exists "bounds failed". reflexivity.
Defined.

(** ** The order of binary64 floats

    [<?] is a strict order, and nothing is below a NaN; from the
    specification of the primitive floats. *)

Lemma Pcompare_spec (m1 m2 : positive) :
  CompareSpec (m1 = m2) (m1 < m2)%positive (m2 < m1)%positive
    (PosDef.Pos.compare_cont Eq m1 m2).
Proof. exact (Pos.compare_spec m1 m2). Qed.

Lemma SFcompare_Lt_trans (a b c : spec_float) :
  SFcompare a b = Some Lt -> SFcompare b c = Some Lt -> SFcompare a c = Some Lt.
Proof.
  destruct a as [sa|sa| |sa ma ea], b as [sb|sb| |sb mb eb], c as [sc|sc| |sc mc ec];
    simpl; try discriminate; try reflexivity;
    repeat match goal with s : bool |- _ => destruct s end;
    try discriminate; try reflexivity.
  all: destruct (Z.compare_spec ea eb), (Z.compare_spec eb ec), (Z.compare_spec ea ec);
    try discriminate; try reflexivity; try lia.
  all: destruct (Pcompare_spec ma mb), (Pcompare_spec mb mc), (Pcompare_spec ma mc);
    simpl; try discriminate; try reflexivity; subst; lia.
Qed.

Lemma SFcompare_not_Lt_refl (a : spec_float) : SFcompare a a <> Some Lt.
Proof.
  destruct a as [s|s| |s m e]; simpl; try destruct s; try discriminate.
  all: rewrite Z.compare_refl; destruct (Pcompare_spec m m); simpl; try discriminate; lia.
Qed.

Lemma SFcompare_refl_nan (a : spec_float) : SFeqb a a = false -> a = S754_nan.
Proof.
  unfold SFeqb.
  destruct a as [s|s| |s m e]; simpl; try destruct s; try discriminate; try reflexivity.
  all: rewrite Z.compare_refl; destruct (Pcompare_spec m m); simpl; try discriminate; lia.
Qed.

Lemma ltb_trans (x y z : float) :
  (x <? y)%float = true -> (y <? z)%float = true -> (x <? z)%float = true.
Proof.
  rewrite !ltb_spec. unfold SFltb.
  destruct (SFcompare (Prim2SF x) (Prim2SF y)) as [[]|] eqn:E1; try discriminate.
  destruct (SFcompare (Prim2SF y) (Prim2SF z)) as [[]|] eqn:E2; try discriminate.
  now rewrite (SFcompare_Lt_trans _ _ _ E1 E2).
Qed.

Lemma ltb_irrefl (x : float) : (x <? x)%float = false.
Proof.
  rewrite ltb_spec. unfold SFltb.
  destruct (SFcompare (Prim2SF x) (Prim2SF x)) as [[]|] eqn:E; try reflexivity.
  now apply SFcompare_not_Lt_refl in E.
Qed.

Lemma ltb_nan_r (x b : float) : PrimFloat.is_nan b = true -> (x <? b)%float = false.
Proof.
  unfold PrimFloat.is_nan. rewrite eqb_spec, ltb_spec. intro H.
  apply negb_true_iff, SFcompare_refl_nan in H. rewrite H.
  unfold SFltb. destruct (Prim2SF x); reflexivity.
Qed.

Lemma SFcompare_le_lt_trans (a b c : spec_float) :
  a <> S754_nan -> b <> S754_nan ->
  SFcompare b a <> Some Lt -> SFcompare b c = Some Lt -> SFcompare a c = Some Lt.
Proof.
  destruct a as [sa|sa| |sa ma ea], b as [sb|sb| |sb mb eb], c as [sc|sc| |sc mc ec];
    simpl; try congruence;
    repeat match goal with s : bool |- _ => destruct s end;
    try congruence.
  all: intros _ _.
  all: destruct (Z.compare_spec eb ea), (Z.compare_spec eb ec), (Z.compare_spec ea ec);
    try congruence; try lia.
  all: destruct (Pcompare_spec mb ma), (Pcompare_spec mb mc), (Pcompare_spec ma mc);
    simpl; try congruence; subst; lia.
Qed.

Lemma is_nan_false (x : float) : PrimFloat.is_nan x = false -> Prim2SF x <> S754_nan.
Proof.
  unfold PrimFloat.is_nan. rewrite eqb_spec. unfold SFeqb. intros H E.
  rewrite E in H. discriminate.
Qed.

(** Away from NaN, what is not above [d] and [d] below [t]: below [t]. *)
Lemma ltb_le_lt_trans (m d t : float) :
  PrimFloat.is_nan m = false -> PrimFloat.is_nan d = false ->
  (d <? m)%float = false -> (d <? t)%float = true -> (m <? t)%float = true.
Proof.
  intros Hm Hd. rewrite !ltb_spec. unfold SFltb. intros Hdm Hdt.
  rewrite (SFcompare_le_lt_trans (Prim2SF m) (Prim2SF d) (Prim2SF t));
    auto using is_nan_false.
  - intro E. rewrite E in Hdm. discriminate.
  - destruct (SFcompare (Prim2SF d) (Prim2SF t)) as [[]|]; congruence.
Qed.

(** ** The loops of the checks *)

Lemma np_getitem_raise {A : Type} (a : list A) (i : Z) (e : string) :
  np_getitem a i = Raise e -> e = index_error i (length a).
Proof.
  unfold np_getitem.
  destruct (_ && _)%bool; [destruct (nth_error _ _)|]; intro H; congruence.
Qed.

Lemma degenerate_loop_spec (vs : list vec3) (fs : list (Z * Z * Z)) :
  forall (i : nat) (acc : list nat),
    degenerate_loop vs fs i acc =
      match first_index_error vs fs with
      | None => Ok (acc ++ degenerate_indices vs fs i)
      | Some e => Raise e
      end.
Proof.
  induction fs as [|[[a b] c] fs IH]; intros i acc; simpl.
  - now rewrite app_nil_r.
  - destruct (np_getitem vs a) as [v0|e0]; simpl; [|reflexivity].
    destruct (np_getitem vs b) as [v1|e1]; simpl; [|reflexivity].
    destruct (np_getitem vs c) as [v2|e2]; simpl; [|reflexivity].
    destruct (face_area v0 v1 v2 <? 1e-10)%float; rewrite IH;
      destruct (first_index_error vs fs); try reflexivity.
    now rewrite <- app_assoc.
Qed.

Lemma valid_faces_first_index_error (vs : list vec3) (fs : list (Z * Z * Z)) :
  valid_faces vs fs = true <-> first_index_error vs fs = None.
Proof.
  induction fs as [|[[a b] c] fs IH]; simpl; [tauto|].
  unfold index_ok.
  destruct (np_getitem vs a), (np_getitem vs b), (np_getitem vs c); simpl;
    try assumption; split; discriminate.
Qed.

Lemma degenerate_indices_length (vs : list vec3) (fs : list (Z * Z * Z)) :
  forall i, length (degenerate_indices vs fs i) = length (filter (is_degenerate vs) fs).
Proof.
  induction fs as [|f fs IH]; intro i; simpl; [reflexivity|].
  destruct (is_degenerate vs f); simpl; now rewrite IH.
Qed.

Lemma find_degenerate_faces_Ok (mesh : Trimesh) (vs : list vec3)
    (fs : list (Z * Z * Z)) (degenerate : list nat) :
  trimesh.vertices mesh = Some vs ->
  trimesh.faces mesh = Some fs ->
  _find_degenerate_faces mesh = Ok degenerate ->
  valid_faces vs fs = true /\
  length degenerate = length (filter (is_degenerate vs) fs).
Proof.
  intros Hv Hf. unfold _find_degenerate_faces. rewrite Hv, Hf. simpl.
  rewrite degenerate_loop_spec.
  destruct (first_index_error vs fs) eqn:E; [discriminate|].
  intro H. injection H as <-. simpl.
  split; [now apply valid_faces_first_index_error | apply degenerate_indices_length].
Qed.

Lemma find_degenerate_faces_none (mesh : Trimesh) (vs : list vec3) (fs : list (Z * Z * Z)) :
  trimesh.vertices mesh = Some vs ->
  trimesh.faces mesh = Some fs ->
  valid_faces vs fs = true ->
  forallb (fun f => negb (is_degenerate vs f)) fs = true ->
  _find_degenerate_faces mesh = Ok [].
Proof.
  intros Hv Hf Hvalid Hnone. unfold _find_degenerate_faces. rewrite Hv, Hf. simpl.
  apply valid_faces_first_index_error in Hvalid.
  rewrite degenerate_loop_spec, Hvalid. simpl. f_equal.
  generalize 0. clear Hvalid Hf.
  induction fs as [|f fs IH]; intro i; simpl in *; [reflexivity|].
  apply andb_true_iff in Hnone as [Hf Hfs].
  apply negb_true_iff in Hf. rewrite Hf. now apply IH.
Qed.

Lemma duplicate_loop_none (vs : list vec3) :
  no_near_duplicates vs -> forall i acc, duplicate_loop vs i acc = acc.
Proof.
  intro H. induction H as [|v vs Hv _ IH]; intros i acc; simpl; [reflexivity|].
  replace (existsb (fun vj => (norm_1d (vsub v vj) <? 1e-6)%float) vs) with false; [apply IH|].
  symmetry. apply not_true_is_false. intro Hex.
  apply existsb_exists in Hex as [vj [Hin Hnear]].
  rewrite Forall_forall in Hv. specialize (Hv vj Hin). unfold near in Hv. congruence.
Qed.

Lemma thin_loop_spec (self : MeshValidator) (mesh : Trimesh) (vs : list vec3) :
  trimesh.vertices mesh = Some vs ->
  forall (points : list vec3) (acc : list thin_region),
    length (thin_loop self mesh points acc)
    = length acc + length (filter (is_thin self vs) points).
Proof.
  intros Hv points. induction points as [|p points IH]; intro acc; simpl; [lia|].
  rewrite Hv. simpl. unfold is_thin at 1, nearest_distance.
  destruct (argmin (distances vs p)) as [idx|e] eqn:E; simpl.
  - destruct (nth idx (distances vs p) nan <? thin_wall_threshold self)%float.
    + rewrite IH, length_app. simpl. lia.
    + apply IH.
  - (* no vertex: the first point raises, and no point is thin *)
    destruct vs as [|v vs]; [|discriminate].
    replace (filter (is_thin self []) points) with (@nil vec3); [simpl; lia|].
    clear. induction points as [|q points IH]; simpl; auto.
Qed.

Lemma detect_thin_walls_length (self : MeshValidator) (mesh : Trimesh) (run : Run)
    (vs : list vec3) :
  trimesh.vertices mesh = Some vs ->
  length (_detect_thin_walls self mesh run)
  = length (filter (is_thin self vs) (evaluated_points run)).
Proof.
  intro Hv. unfold _detect_thin_walls, evaluated_points.
  destruct (sample run 1000) as [pts|e]; [|reflexivity].
  now rewrite (thin_loop_spec self mesh vs Hv).
Qed.

Lemma evaluated_points_length (run : Run) : length (evaluated_points run) <= 10.
Proof.
  unfold evaluated_points. destruct (sample run 1000) as [pts|e]; [|simpl; lia].
  rewrite length_firstn. lia.
Qed.

(** The nearest distance is the distance to one of the vertices. *)
Lemma argmin_from_bound (a : list float) :
  forall best_i best i, best_i < i -> argmin_from best_i best i a < i + length a.
Proof.
  induction a as [|x a IH]; intros best_i best i Hlt; simpl; [lia|].
  destruct (PrimFloat.is_nan best); [lia|].
  destruct (_ || _)%bool.
  - specialize (IH i x (S i)). lia.
  - specialize (IH best_i best (S i)). lia.
Qed.

Lemma nearest_distance_In (vs : list vec3) (point : vec3) (d : float) :
  nearest_distance vs point = Some d ->
  exists v, In v vs /\ d = norm (vsub v point).
Proof.
  unfold nearest_distance.
  destruct (argmin (distances vs point)) as [idx|e] eqn:E; [|discriminate].
  intro H. injection H as <-.
  assert (Hidx : idx < length (distances vs point)).
  { unfold argmin in E. destruct (distances vs point) as [|x a]; [discriminate|].
    injection E as <-. pose proof (argmin_from_bound a 0 x 1). simpl. lia. }
  pose proof (nth_In (distances vs point) nan Hidx) as Hin.
  unfold distances in Hin at 2. apply in_map_iff in Hin as [v [Hv Hin]].
  exists v. split; [assumption | now symmetry].
Qed.

(** [np.argmin] returns the index of an element that no element is below. *)
Lemma argmin_from_min (a : list float) :
  forall (pre : list float) (best_i : nat) (best : float) (i : nat),
    length pre = i -> best_i < i -> nth best_i pre nan = best ->
    (forall y, In y pre -> (y <? best)%float = false) ->
    forall y, In y (pre ++ a) ->
      (y <? nth (argmin_from best_i best i a) (pre ++ a) nan)%float = false.
Proof.
  induction a as [|x a IH]; intros pre best_i best i Hlen Hlt Hbest Hmin y Hy.
  - simpl. rewrite app_nil_r in *. rewrite Hbest. now apply Hmin.
  - simpl. destruct (PrimFloat.is_nan best) eqn:Enan.
    + rewrite app_nth1 by lia. rewrite Hbest. now apply ltb_nan_r.
    + change (pre ++ x :: a) with (pre ++ [x] ++ a) in *.
      rewrite app_assoc in *.
      destruct (PrimFloat.is_nan x || (x <? best)%float)%bool eqn:Ex.
      * apply (IH (pre ++ [x]) i x (S i)); try assumption.
        -- rewrite length_app. simpl. lia.
        -- lia.
        -- subst i. apply nth_middle.
        -- intros z Hz. apply in_app_or in Hz as [Hz|[<-|[]]].
           ++ apply orb_true_iff in Ex as [Ex|Ex]; [now apply ltb_nan_r|].
              destruct (z <? x)%float eqn:Ezx; [|reflexivity].
              rewrite <- (Hmin z Hz). symmetry. now apply (ltb_trans z x best).
           ++ apply ltb_irrefl.
      * apply orb_false_iff in Ex as [_ Ex].
        apply (IH (pre ++ [x]) best_i best (S i)); try assumption.
        -- rewrite length_app. simpl. lia.
        -- lia.
        -- rewrite app_nth1 by lia. assumption.
        -- intros z Hz. apply in_app_or in Hz as [Hz|[<-|[]]]; [now apply Hmin | assumption].
Qed.

Lemma nearest_distance_min (vs : list vec3) (point : vec3) (d : float) :
  nearest_distance vs point = Some d ->
  forall v, In v vs -> (norm (vsub v point) <? d)%float = false.
Proof.
  unfold nearest_distance. intros H v Hv.
  assert (Hin : In (norm (vsub v point)) (distances vs point)).
  { unfold distances. apply in_map_iff. now exists v. }
  destruct (distances vs point) as [|x a] eqn:E; [contradiction|].
  simpl in H. injection H as <-.
  apply (argmin_from_min a [x] 0 x 1); simpl; auto.
  intros y [<-|[]]. apply ltb_irrefl.
Qed.

(** Where no distance is a NaN, the nearest vertex is closer than the
    threshold exactly when some vertex is. *)
Lemma is_thin_some_vertex (self : MeshValidator) (vs : list vec3) (point : vec3) :
  (forall v, In v vs -> PrimFloat.is_nan (norm (vsub v point)) = false) ->
  (is_thin self vs point = true <->
   exists v, In v vs /\ (norm (vsub v point) <? thin_wall_threshold self)%float = true).
Proof.
  intro Hnan. unfold is_thin. split.
  - destruct (nearest_distance vs point) as [d|] eqn:E; [|discriminate].
    intro Hd. destruct (nearest_distance_In vs point d E) as [v [Hv ->]]. eauto.
  - intros [v [Hv Hlt]].
    destruct (nearest_distance vs point) as [d|] eqn:E.
    + destruct (nearest_distance_In vs point d E) as [w [Hw Hd]].
      apply (ltb_le_lt_trans d (norm (vsub v point))); auto.
      * subst d. now apply Hnan.
      * now apply (nearest_distance_min vs point d E).
    + unfold nearest_distance in E. destruct vs; [contradiction | discriminate].
Qed.

(** ** The check engine in normal form *)

Lemma run_validation_checks_nf (str_float : float -> string) (self : MeshValidator)
    (mesh : Trimesh) (run : Run) :
  _run_validation_checks str_float self mesh run =
    (wt <- trimesh.is_watertight mesh ;;
     wc <- trimesh.is_winding_consistent mesh ;;
     components <- trimesh.split mesh ;;
     degenerate_faces <- _find_degenerate_faces mesh ;;
     duplicate_vertices <- _find_duplicate_vertices mesh ;;
     Ok (errors_of mesh wt wc degenerate_faces,
         warnings_of str_float self components duplicate_vertices
           (_detect_thin_walls self mesh run))).
Proof.
  unfold _run_validation_checks, errors_of, warnings_of, thin_wall_issues,
    self_intersecting_proxy.
  destruct (trimesh.is_watertight mesh) as [wt|e]; [|reflexivity].
  destruct (trimesh.is_winding_consistent mesh) as [wc|e]; [|reflexivity].
  destruct (trimesh.split mesh) as [n|e]; [|reflexivity].
  destruct (_find_degenerate_faces mesh) as [deg|e]; [|reflexivity].
  destruct (_find_duplicate_vertices mesh) as [dups|e]; [|reflexivity].
  cbn [bind]. f_equal. f_equal.
  - destruct wt, wc, (0 <? length deg);
      destruct (trimesh.bounds mesh) as [[[lo hi]|]|e]; try reflexivity;
      destruct (existsb _ _); reflexivity.
  - destruct (1 <? n), (0 <? length dups), (0 <? length (_detect_thin_walls self mesh run));
      reflexivity.
Qed.

Lemma run_validation_checks_Ok (str_float : float -> string) (self : MeshValidator)
    (mesh : Trimesh) (run : Run) (errors warnings : list ValidationIssue) :
  _run_validation_checks str_float self mesh run = Ok (errors, warnings) ->
  exists wt wc components degenerate_faces duplicate_vertices,
    trimesh.is_watertight mesh = Ok wt /\
    trimesh.is_winding_consistent mesh = Ok wc /\
    trimesh.split mesh = Ok components /\
    _find_degenerate_faces mesh = Ok degenerate_faces /\
    _find_duplicate_vertices mesh = Ok duplicate_vertices /\
    errors = errors_of mesh wt wc degenerate_faces /\
    warnings = warnings_of str_float self components duplicate_vertices
                 (_detect_thin_walls self mesh run).
Proof.
  rewrite run_validation_checks_nf.
  destruct (trimesh.is_watertight mesh) as [wt|e]; [|discriminate].
  destruct (trimesh.is_winding_consistent mesh) as [wc|e]; [|discriminate].
  destruct (trimesh.split mesh) as [n|e]; [|discriminate].
  destruct (_find_degenerate_faces mesh) as [deg|e]; [|discriminate].
  destruct (_find_duplicate_vertices mesh) as [dups|e]; [|discriminate].
  simpl. intro H. injection H as <- <-.
  exists wt, wc, n, deg, dups. repeat split.
Qed.

(** ** The checks *)

Lemma filter_nonempty {A : Type} (p : A -> bool) (l : list A) :
  0 < length (filter p l) <-> exists x, In x l /\ p x = true.
Proof.
  split.
  - destruct (filter p l) as [|x l'] eqn:E; simpl; [lia|]. intros _.
    exists x. apply filter_In. rewrite E. now left.
  - intros [x Hx]. apply filter_In in Hx.
    destruct (filter p l); [contradiction | simpl; lia].
Qed.

Lemma errors_of_degenerate (mesh : Trimesh) (wt wc : bool) (deg : list nat) :
  filter (has_code DEGENERATE_FACES) (errors_of mesh wt wc deg)
  = if 0 <? length deg
    then [ValidationIssue_ DEGENERATE_FACES
            ("Found " ++ str_nat (length deg) ++ " degenerate faces")%string
            (Some (length deg))]
    else [].
Proof.
  unfold errors_of.
  destruct wt, wc, (self_intersecting_proxy mesh), (0 <? length deg); reflexivity.
Qed.

Lemma warnings_of_degenerate (str_float : float -> string) (self : MeshValidator)
    (n : nat) (dups : list nat) (thin : list thin_region) :
  filter (has_code DEGENERATE_FACES) (warnings_of str_float self n dups thin) = [].
Proof.
  unfold warnings_of, thin_wall_issues.
  destruct (1 <? n), (0 <? length dups), (0 <? length thin); reflexivity.
Qed.

(** C7: the degenerate-faces check emits an error coded DEGENERATE_FACES if
    and only if some triangle has area below 1e-10, the area of a triangle
    being half the norm of the cross product of the two edge vectors from
    its first vertex; the count of the issue is the number of such
    triangles. The check is the fifth step of the engine: it is reached, and
    the engine completes, whenever the three library reads before it return
    and every face index is in range. *)
Theorem degenerate_faces_check (str_float : float -> string) (self : MeshValidator)
    (mesh : Trimesh) (run : Run) (vs : list vec3) (fs : list (Z * Z * Z)) :
  trimesh.vertices mesh = Some vs ->
  trimesh.faces mesh = Some fs ->
  let n := length (filter (is_degenerate vs) fs) in
  (forall errors warnings,
     _run_validation_checks str_float self mesh run = Ok (errors, warnings) ->
     filter (has_code DEGENERATE_FACES) errors
     = (if 0 <? n
        then [{| code := DEGENERATE_FACES;
                 message := ("Found " ++ str_nat n ++ " degenerate faces")%string;
                 severity := error; count := Some n; locations := None |}]
        else []) /\
     filter (has_code DEGENERATE_FACES) warnings = []) /\
  (0 < n <-> exists f, In f fs /\ is_degenerate vs f = true) /\
  (forall a b c v0 v1 v2,
     np_getitem vs a = Ok v0 -> np_getitem vs b = Ok v1 -> np_getitem vs c = Ok v2 ->
     is_degenerate vs (a, b, c)
     = (0.5 * norm_1d (cross (vsub v1 v0) (vsub v2 v0)) <? 1e-10)%float) /\
  (forall wt wc k,
     trimesh.is_watertight mesh = Ok wt ->
     trimesh.is_winding_consistent mesh = Ok wc ->
     trimesh.split mesh = Ok k ->
     valid_faces vs fs = true ->
     exists errors warnings,
       _run_validation_checks str_float self mesh run = Ok (errors, warnings)).
Proof.
  intros Hv Hf n.
  split; [|split; [|split]].
  - intros errors warnings H.
    apply run_validation_checks_Ok in H
      as (wt & wc & k & deg & dups & _ & _ & _ & Hdeg & _ & -> & ->).
    destruct (find_degenerate_faces_Ok mesh vs fs deg Hv Hf Hdeg) as [_ Hlen].
    fold n in Hlen. split.
    + rewrite errors_of_degenerate, Hlen. reflexivity.
    + apply warnings_of_degenerate.
  - apply filter_nonempty.
  - intros a b c v0 v1 v2 H0 H1 H2. unfold is_degenerate. now rewrite H0, H1, H2.
  - intros wt wc k Hwt Hwc Hk Hvalid.
    rewrite run_validation_checks_nf, Hwt, Hwc, Hk. cbn [bind].
    unfold _find_degenerate_faces, _find_duplicate_vertices.
    rewrite Hv, Hf. cbn [getattr bind].
    apply valid_faces_first_index_error in Hvalid.
    rewrite degenerate_loop_spec, Hvalid. cbn [bind]. eauto.
Qed.

Lemma warnings_of_thin_wall (str_float : float -> string) (self : MeshValidator)
    (n : nat) (dups : list nat) (thin : list thin_region) :
  filter (has_code THIN_WALL) (warnings_of str_float self n dups thin)
  = thin_wall_issues str_float self (length thin).
Proof.
  unfold warnings_of, thin_wall_issues.
  destruct (1 <? n), (0 <? length dups), (0 <? length thin); reflexivity.
Qed.

Lemma errors_of_thin_wall (mesh : Trimesh) (wt wc : bool) (deg : list nat) :
  filter (has_code THIN_WALL) (errors_of mesh wt wc deg) = [].
Proof.
  unfold errors_of.
  destruct wt, wc, (self_intersecting_proxy mesh), (0 <? length deg); reflexivity.
Qed.

(** C8: the thin-wall check asks for 1000 surface points and evaluates the
    first 10 of those it gets; it emits one THIN_WALL warning if and only if
    the nearest vertex of some evaluated point lies closer than the
    thin-wall threshold (0.5 by default); the count of the warning is the
    number of such points, at most 10. *)
Theorem thin_wall_check (str_float : float -> string) (self : MeshValidator)
    (mesh : Trimesh) (run : Run) (vs : list vec3)
    (errors warnings : list ValidationIssue) :
  trimesh.vertices mesh = Some vs ->
  _run_validation_checks str_float self mesh run = Ok (errors, warnings) ->
  let evaluated :=
    match sample run 1000 with
    | Ok surface_points => firstn 10 surface_points
    | Raise _ => []
    end in
  let n := length (filter (is_thin self vs) evaluated) in
  filter (has_code THIN_WALL) warnings
  = (if 0 <? n
     then [{| code := THIN_WALL;
              message := ("Detected " ++ str_nat n ++ " regions with thickness < "
                            ++ str_float (thin_wall_threshold self) ++ "mm")%string;
              severity := error; count := Some n; locations := None |}]
     else []) /\
  filter (has_code THIN_WALL) errors = [] /\
  (0 < n <-> exists point, In point evaluated /\ is_thin self vs point = true) /\
  n <= 10 /\
  (forall point,
     (forall v, In v vs -> PrimFloat.is_nan (norm (vsub v point)) = false) ->
     (is_thin self vs point = true <->
      exists v, In v vs /\ (norm (vsub v point) <? thin_wall_threshold self)%float = true)) /\
  (forall point,
     is_thin self vs point = true <->
     exists d,
       (exists v, In v vs /\ d = norm (vsub v point)) /\
       (forall v, In v vs -> (norm (vsub v point) <? d)%float = false) /\
       nearest_distance vs point = Some d /\
       (d <? thin_wall_threshold self)%float = true) /\
  thin_wall_threshold MeshValidator_default = 0.5%float.
Proof.
  intros Hv H evaluated n.
  apply run_validation_checks_Ok in H
    as (wt & wc & k & deg & dups & _ & _ & _ & _ & _ & -> & ->).
  fold (evaluated_points run) in evaluated. subst evaluated.
  pose proof (detect_thin_walls_length self mesh run vs Hv) as Hlen. fold n in Hlen.
  repeat split.
  - rewrite warnings_of_thin_wall, Hlen. reflexivity.
  - apply errors_of_thin_wall.
  - apply filter_nonempty.
  - apply filter_nonempty.
  - subst n. etransitivity; [apply filter_length_le | apply evaluated_points_length].
  - now apply is_thin_some_vertex.
  - now apply is_thin_some_vertex.
  - intros Hthin. unfold is_thin in Hthin.
    destruct (nearest_distance vs point) as [d|] eqn:E; [|discriminate].
    exists d. repeat split; try assumption.
    + now apply nearest_distance_In.
    + now apply nearest_distance_min.
  - intros (d & _ & _ & Hd & Hlt). unfold is_thin. now rewrite Hd.
Qed.

Lemma degenerate_faces_check_witness :
  filter (has_code DEGENERATE_FACES)
    (errors (validate_mesh Examples.str_float MeshValidator_default
               (Examples.run_sampling "run-1" (Ok [])) (Ok (trimesh.Geometry Examples.sliver))
               "sliver.stl"))
  = [{| code := DEGENERATE_FACES; message := "Found 1 degenerate faces";
        severity := error; count := Some 1; locations := None |}].
Proof.
  destruct (degenerate_faces_check Examples.str_float MeshValidator_default
              Examples.sliver (Examples.run_sampling "run-1" (Ok []))
              [(0, 0, 0); (1, 0, 0); (2, 0, 0); (0, 1, 5)]%float
              [(0, 1, 2); (0, 1, 3)]%Z eq_refl eq_refl) as (H & _).
  refine (proj1 (H _ [] _)). vm_compute. reflexivity.
Defined.

Lemma thin_wall_check_witness :
  filter (has_code THIN_WALL)
    (warnings (validate_mesh Examples.str_float MeshValidator_default
                 (Examples.run_sampling "run-1" (Ok Examples.cube_near_corner))
                 (Ok (trimesh.Geometry Examples.cube)) "cube.stl"))
  = [{| code := THIN_WALL; message := "Detected 1 regions with thickness < 0.5mm";
        severity := error; count := Some 1; locations := None |}].
Proof.
  refine (proj1 (thin_wall_check Examples.str_float MeshValidator_default
                   Examples.cube (Examples.run_sampling "run-1" (Ok Examples.cube_near_corner))
                   Examples.cube_vertices [] _ _ _)); reflexivity.
Defined.

(** ** The orchestrator *)

Lemma validate_mesh_loaded (str_float : float -> string) (self : MeshValidator)
    (run : Run) (load : result trimesh.Loaded) (filename : string) (mesh : Trimesh) :
  _load_mesh load = Ok mesh ->
  validate_mesh str_float self run load filename =
    match _run_validation_checks str_float self mesh run with
    | Ok (errors, warnings) =>
        {| model_id := uuid4 run; filename := filename;
           metrics := _compute_metrics mesh;
           errors := errors; warnings := warnings;
           decision := _determine_decision errors warnings;
           processing_time_ms := ((time_end run - time_start run) * 1000)%float;
           timestamp := utcnow run |}
    | Raise e => failure_report run filename e
    end.
Proof.
  intro H. unfold validate_mesh, validate_mesh_try. rewrite H. cbn [bind].
  destruct (_run_validation_checks str_float self mesh run) as [[errors warnings]|e];
    reflexivity.
Qed.

(** Every issue that the check engine builds has the default severity. *)
Lemma check_engine_severity (str_float : float -> string) (self : MeshValidator)
    (mesh : Trimesh) (run : Run) (errors warnings : list ValidationIssue) :
  _run_validation_checks str_float self mesh run = Ok (errors, warnings) ->
  Forall (fun issue => severity issue = error) (errors ++ warnings).
Proof.
  intro H.
  apply run_validation_checks_Ok in H
    as (wt & wc & k & deg & dups & _ & _ & _ & _ & _ & -> & ->).
  unfold errors_of, warnings_of, thin_wall_issues.
  destruct wt, wc, (self_intersecting_proxy mesh), (0 <? length deg),
    (1 <? k), (0 <? length dups), (0 <? length (_detect_thin_walls self mesh run));
    simpl; repeat constructor.
Qed.

(** C9, on the code: the MULTIPLE_COMPONENTS issue of a mesh of two shells
    sits in the warnings list with severity "error", the default of the
    constructor. *)
Lemma multiple_components_warning_severity :
  warnings (validate_mesh Examples.str_float MeshValidator_default
              (Examples.run_sampling "run-1" (Ok [(3, 3, 0)]%float))
              (Ok (trimesh.Geometry Examples.two_shells)) "two_shells.stl")
  = [{| code := MULTIPLE_COMPONENTS; message := "Mesh has 2 disconnected components";
        severity := error; count := Some 2; locations := None |}].
Proof. reflexivity. Qed.

Lemma check_engine_codes (str_float : float -> string) (self : MeshValidator)
    (mesh : Trimesh) (run : Run) (errors warnings : list ValidationIssue) :
  _run_validation_checks str_float self mesh run = Ok (errors, warnings) ->
  map code errors = filter (triggered self mesh run) error_order /\
  map code warnings = filter (triggered self mesh run) warning_order.
Proof.
  intro H.
  apply run_validation_checks_Ok in H
    as (wt & wc & k & deg & dups & Hwt & Hwc & Hk & Hdeg & Hdups & -> & ->).
  unfold error_order, warning_order, triggered, filter.
  rewrite Hwt, Hwc, Hk, Hdeg, Hdups.
  unfold errors_of, warnings_of, thin_wall_issues.
  split.
  - destruct wt, wc, (self_intersecting_proxy mesh), (0 <? length deg); reflexivity.
  - destruct (1 <? k), (0 <? length dups), (0 <? length (_detect_thin_walls self mesh run));
      reflexivity.
Qed.

Lemma filter_subseqb (p : ErrorCode -> bool) (order : list ErrorCode) :
  subseqb (filter p order) order = true.
Proof.
  induction order as [|c order IH]; simpl; [reflexivity|].
  destruct (p c) eqn:Epc.
  - replace (ErrorCode_eqb c c) with true; [assumption|].
    symmetry. now apply ErrorCode_eqb_eq.
  - destruct (filter p order) as [|x l] eqn:E; [reflexivity|].
    destruct (ErrorCode_eqb x c) eqn:Ex; [|assumption].
    (* [x] was kept by the filter, so [p x] holds, yet [x = c] *)
    apply ErrorCode_eqb_eq in Ex. subst x.
    assert (Hin : In c (filter p order)) by (rewrite E; now left).
    apply filter_In in Hin as [_ Hp]. congruence.
Qed.

(** C10, on the code: a point cloud parses, the watertightness read raises
    and the engine stops; the errors list of the report is the single
    DEGENERATE_FACES issue of the [except] branch, although the object has no
    triangle and the degenerate-faces check has not triggered. *)
Lemma parsed_point_cloud_degenerate_code :
  _load_mesh (Ok (trimesh.Geometry Examples.point_cloud)) = Ok Examples.point_cloud /\
  errors (validate_mesh Examples.str_float MeshValidator_default
            (Examples.run_sampling "run-1" (Ok []))
            (Ok (trimesh.Geometry Examples.point_cloud)) "cloud.ply")
  = [ValidationIssue_ DEGENERATE_FACES
       "Failed to load mesh: 'PointCloud' object has no attribute 'is_watertight'" None] /\
  triggered MeshValidator_default Examples.point_cloud
    (Examples.run_sampling "run-1" (Ok [])) DEGENERATE_FACES = false.
Proof. vm_compute. repeat split. Qed.

(** C10, as amended: in a run whose input parses, no issue code occurs twice
    in the errors and warnings lists together; the codes of the errors list
    follow the order NOT_WATERTIGHT, NON_MANIFOLD, SELF_INTERSECTING,
    DEGENERATE_FACES and those of the warnings list the order
    MULTIPLE_COMPONENTS, DUPLICATE_VERTICES, THIN_WALL; INVERTED_NORMALS
    never occurs. When the check engine completes, the codes present are
    those whose check triggered; when a check raises and stops the engine,
    the errors list is the single DEGENERATE_FACES issue that carries the
    message of the failure, and there is no warning. *)
Theorem issue_codes_ordered_unique (str_float : float -> string) (self : MeshValidator)
    (run : Run) (load : result trimesh.Loaded) (filename : string) (mesh : Trimesh) :
  _load_mesh load = Ok mesh ->
  let report := validate_mesh str_float self run load filename in
  NoDup (map code (errors report ++ warnings report)) /\
  subseqb (map code (errors report)) error_order = true /\
  subseqb (map code (warnings report)) warning_order = true /\
  ~ In INVERTED_NORMALS (map code (errors report ++ warnings report)) /\
  (forall errors warnings,
     _run_validation_checks str_float self mesh run = Ok (errors, warnings) ->
     map code (models.errors report) = filter (triggered self mesh run) error_order /\
     map code (models.warnings report) = filter (triggered self mesh run) warning_order) /\
  (forall e,
     _run_validation_checks str_float self mesh run = Raise e ->
     models.errors report
     = [{| code := DEGENERATE_FACES;
           message := ("Failed to load mesh: " ++ e)%string;
           severity := error; count := None; locations := None |}] /\
     models.warnings report = []).
Proof.
  intros Hload report. subst report.
  rewrite (validate_mesh_loaded _ _ _ _ _ _ Hload).
  destruct (_run_validation_checks str_float self mesh run) as [[errors warnings]|e] eqn:E.
  - destruct (check_engine_codes _ _ _ _ _ _ E) as [He Hw]. cbn [models.errors models.warnings].
    rewrite map_app, He, Hw.
    split; [|split; [|split; [|split; [|split]]]].
    + unfold error_order, warning_order, filter.
      destruct (triggered self mesh run NOT_WATERTIGHT),
        (triggered self mesh run NON_MANIFOLD),
        (triggered self mesh run SELF_INTERSECTING),
        (triggered self mesh run DEGENERATE_FACES),
        (triggered self mesh run MULTIPLE_COMPONENTS),
        (triggered self mesh run DUPLICATE_VERTICES),
        (triggered self mesh run THIN_WALL);
        simpl; repeat (constructor; [simpl; intuition discriminate|]); constructor.
    + apply filter_subseqb.
    + apply filter_subseqb.
    + intro Hin. apply in_app_or in Hin as [Hin|Hin];
        apply filter_In in Hin as [Hin _]; simpl in Hin; intuition discriminate.
    + intros errors0 warnings0 _. now split.
    + intros e0 H0. discriminate H0.
  - unfold failure_report. cbn [models.errors models.warnings].
    split; [|split; [|split; [|split; [|split]]]].
    + simpl. repeat constructor. simpl. tauto.
    + reflexivity.
    + reflexivity.
    + simpl. intuition discriminate.
    + intros errors0 warnings0 H0. discriminate H0.
    + intros e0 H0. injection H0 as <-. now split.
Qed.

Lemma issue_codes_ordered_unique_witness :
  let report :=
    validate_mesh Examples.str_float MeshValidator_default
      (Examples.run_sampling "run-1" (Ok [(3, 3, 0)]%float))
      (Ok (trimesh.Geometry Examples.sliver)) "sliver.stl" in
  subseqb (map code (errors report)) error_order = true.
Proof.
  refine (proj1 (proj2 (issue_codes_ordered_unique Examples.str_float MeshValidator_default
                          (Examples.run_sampling "run-1" (Ok [(3, 3, 0)]%float))
                          (Ok (trimesh.Geometry Examples.sliver)) "sliver.stl"
                          Examples.sliver _))).
  reflexivity.
Defined.

(** ** Valid meshes *)

(** C3, on the code: a flat tetrahedron (closed, consistently wound, one
    component, vertices at least 10 apart, faces of area 50) is blocked by
    the self-intersection proxy, and a small tetrahedron with the same
    qualities is allowed with a thin-wall warning only. *)
Lemma valid_mesh_blocked_or_warned :
  (Reference.describes_closed_surface Examples.flat_tetra = true /\
   trimesh.split Examples.flat_tetra = Ok 1 /\
   _find_duplicate_vertices Examples.flat_tetra = Ok [] /\
   _find_degenerate_faces Examples.flat_tetra = Ok [] /\
   let report :=
     validate_mesh Examples.str_float MeshValidator_default
       (Examples.run_sampling "run-1" (Ok [(5, 5, 0)]%float))
       (Ok (trimesh.Geometry Examples.flat_tetra)) "flat.stl" in
   errors report =
     [ValidationIssue_ SELF_INTERSECTING
        "Mesh appears to have self-intersections or is extremely thin" None] /\
   decision report = BLOCK) /\
  (Reference.describes_closed_surface Examples.small_tetra = true /\
   trimesh.split Examples.small_tetra = Ok 1 /\
   _find_duplicate_vertices Examples.small_tetra = Ok [] /\
   _find_degenerate_faces Examples.small_tetra = Ok [] /\
   let report :=
     validate_mesh Examples.str_float MeshValidator_default
       (Examples.run_sampling "run-1" (Ok [(0.05, 0.05, 0)]%float))
       (Ok (trimesh.Geometry Examples.small_tetra)) "small.stl" in
   errors report = [] /\
   decision report = ALLOW_WITH_WARNINGS).
Proof. vm_compute. repeat split. Qed.

(** C3, as amended: for a watertight, winding-consistent, single-component
    mesh with valid face indices, no two vertices within 1e-6 of each other,
    no triangle of area below 1e-10 (distances and areas as the code
    computes them) and a bounding box of extent at least 1e-6 on every axis,
    the errors list is empty, and the decision is ALLOW whenever no
    evaluated sample point has its nearest vertex closer than the thin-wall
    threshold. *)
Theorem valid_mesh_report (str_float : float -> string) (self : MeshValidator)
    (run : Run) (load : result trimesh.Loaded) (filename : string)
    (mesh : Trimesh) (vs : list vec3) (fs : list (Z * Z * Z)) :
  _load_mesh load = Ok mesh ->
  trimesh.vertices mesh = Some vs ->
  trimesh.faces mesh = Some fs ->
  trimesh.is_watertight mesh = Ok true ->
  trimesh.is_winding_consistent mesh = Ok true ->
  trimesh.split mesh = Ok 1 ->
  valid_faces vs fs = true ->
  no_near_duplicates vs ->
  forallb (fun f => negb (is_degenerate vs f)) fs = true ->
  self_intersecting_proxy mesh = false ->
  let report := validate_mesh str_float self run load filename in
  let n := length (filter (is_thin self vs) (evaluated_points run)) in
  errors report = [] /\
  (n = 0 -> warnings report = [] /\ decision report = ALLOW).
Proof.
  intros Hload Hv Hf Hwt Hwc Hsplit Hvalid Hdup Hdeg Hsi report n. subst report.
  rewrite (validate_mesh_loaded _ _ _ _ _ _ Hload), run_validation_checks_nf.
  rewrite Hwt, Hwc, Hsplit, (find_degenerate_faces_none mesh vs fs Hv Hf Hvalid Hdeg).
  unfold _find_duplicate_vertices. rewrite Hv. cbn [getattr bind].
  rewrite (duplicate_loop_none vs Hdup).
  unfold errors_of, warnings_of, thin_wall_issues. rewrite Hsi.
  rewrite (detect_thin_walls_length self mesh run vs Hv). fold n.
  cbn [negb length Nat.ltb Nat.leb app models.errors models.warnings models.decision].
  split; [reflexivity|].
  intros ->. split; reflexivity.
Qed.

Lemma valid_mesh_report_witness :
  let report :=
    validate_mesh Examples.str_float MeshValidator_default
      (Examples.run_sampling "run-1" (Ok Examples.cube_face_centres))
      (Ok (trimesh.Geometry Examples.cube)) "test_cube.stl" in
  errors report = [] /\ warnings report = [] /\ decision report = ALLOW.
Proof.
  assert (Hnd : no_near_duplicates Examples.cube_vertices).
  { unfold no_near_duplicates, Examples.cube_vertices.
    repeat (constructor; [repeat (constructor; [reflexivity|]); constructor|]).
    constructor. }
  destruct (valid_mesh_report Examples.str_float MeshValidator_default
              (Examples.run_sampling "run-1" (Ok Examples.cube_face_centres))
              (Ok (trimesh.Geometry Examples.cube)) "test_cube.stl"
              Examples.cube Examples.cube_vertices Examples.cube_faces
              eq_refl eq_refl eq_refl eq_refl eq_refl eq_refl eq_refl Hnd eq_refl eq_refl)
    as (He & H0).
  destruct (H0 eq_refl) as [Hw Hd].
  repeat split; assumption.
Defined.

(** ** Failures inside the checks *)

(** C4, on the code: a point cloud parses; the watertightness read raises
    AttributeError inside the first check, the check engine stops there, and
    the report is the one of the [except] branch of [validate_mesh]: the
    self-intersection proxy, which would have flagged the flat cloud, has
    not run. *)
Lemma watertight_check_failure_aborts_checks :
  _load_mesh (Ok (trimesh.Geometry Examples.point_cloud)) = Ok Examples.point_cloud /\
  trimesh.is_watertight Examples.point_cloud
  = Raise "'PointCloud' object has no attribute 'is_watertight'" /\
  self_intersecting_proxy Examples.point_cloud = true /\
  _run_validation_checks Examples.str_float MeshValidator_default Examples.point_cloud
    (Examples.run_sampling "run-1" (Ok []))
  = Raise "'PointCloud' object has no attribute 'is_watertight'" /\
  errors (validate_mesh Examples.str_float MeshValidator_default
            (Examples.run_sampling "run-1" (Ok []))
            (Ok (trimesh.Geometry Examples.point_cloud)) "cloud.ply")
  = [ValidationIssue_ DEGENERATE_FACES
       "Failed to load mesh: 'PointCloud' object has no attribute 'is_watertight'" None].
Proof. vm_compute. repeat split. Qed.

(** The thin-wall loop reads the vertices of the mesh and nothing else. *)
Lemma thin_loop_vertices (self : MeshValidator) (mesh mesh' : Trimesh) :
  trimesh.vertices mesh = trimesh.vertices mesh' ->
  forall points acc, thin_loop self mesh points acc = thin_loop self mesh' points acc.
Proof.
  intros Hv points. induction points as [|p points IH]; intro acc; simpl; [reflexivity|].
  rewrite Hv.
  destruct (vs <- getattr "vertices" (trimesh.vertices mesh') ;;
            nearest_idx <- argmin (distances vs p) ;;
            Ok (nth nearest_idx (distances vs p) nan)) as [d|e]; [|reflexivity].
  destruct (d <? thin_wall_threshold self)%float; apply IH.
Qed.

Lemma run_validation_checks_raises (str_float : float -> string) (self : MeshValidator)
    (mesh : Trimesh) (run : Run) (e : string) :
  trimesh.is_watertight mesh = Raise e \/
  trimesh.is_winding_consistent mesh = Raise e \/
  trimesh.split mesh = Raise e \/
  _find_degenerate_faces mesh = Raise e ->
  exists e', _run_validation_checks str_float self mesh run = Raise e'.
Proof.
  rewrite run_validation_checks_nf.
  intros [H|[H|[H|H]]];
    destruct (trimesh.is_watertight mesh) as [wt|e0]; simpl; eauto;
    destruct (trimesh.is_winding_consistent mesh) as [wc|e1]; simpl; eauto;
    destruct (trimesh.split mesh) as [n|e2]; simpl; eauto;
    destruct (_find_degenerate_faces mesh) as [deg|e3]; simpl; eauto;
    destruct (_find_duplicate_vertices mesh) as [dups|e4]; simpl; eauto;
    discriminate.
Qed.

(** C4, as amended: the self-intersection proxy and the thin-wall check
    swallow their own failure: when [mesh.bounds] raises, the check engine
    gives what it gives when the bounds are absent and the proxy is skipped,
    without SELF_INTERSECTING; when sampling raises, it gives what it gives
    for an empty sample, without THIN_WALL. The duplicate-vertices check
    does not fail on a mesh that has loaded. A failure inside any other check
    (watertightness, winding, components, degenerate faces) leaves the check
    engine as an exception, which the orchestrator turns into its BLOCK
    report with a single DEGENERATE_FACES error. *)
Theorem check_failure_handling (str_float : float -> string) (self : MeshValidator)
    (mesh : Trimesh) (run : Run) :
  (forall e, trimesh.bounds mesh = Raise e ->
     _run_validation_checks str_float self mesh run
     = _run_validation_checks str_float self (with_bounds mesh (Ok None)) run /\
     forall errors warnings,
       _run_validation_checks str_float self mesh run = Ok (errors, warnings) ->
       filter (has_code SELF_INTERSECTING) (errors ++ warnings) = []) /\
  (forall e, sample run 1000 = Raise e ->
     _run_validation_checks str_float self mesh run
     = _run_validation_checks str_float self mesh (with_sample run (fun _ => Ok [])) /\
     forall errors warnings,
       _run_validation_checks str_float self mesh run = Ok (errors, warnings) ->
       filter (has_code THIN_WALL) (errors ++ warnings) = []) /\
  (forall e load filename,
     _load_mesh load = Ok mesh ->
     trimesh.is_watertight mesh = Raise e \/
     trimesh.is_winding_consistent mesh = Raise e \/
     trimesh.split mesh = Raise e \/
     _find_degenerate_faces mesh = Raise e ->
     exists e',
       _run_validation_checks str_float self mesh run = Raise e' /\
       validate_mesh str_float self run load filename = failure_report run filename e') /\
  (forall load,
     _load_mesh load = Ok mesh ->
     exists duplicates, _find_duplicate_vertices mesh = Ok duplicates).
Proof.
  split; [|split; [|split]].
  - intros e Hb. split.
    + rewrite !run_validation_checks_nf.
      unfold errors_of, self_intersecting_proxy, _find_degenerate_faces,
        _find_duplicate_vertices, _detect_thin_walls.
      cbn [with_bounds trimesh.bounds trimesh.vertices trimesh.faces trimesh.is_watertight
           trimesh.is_winding_consistent trimesh.split trimesh.open_boundaries].
      rewrite Hb.
      destruct (sample run 1000) as [pts|e0]; [|reflexivity].
      rewrite (thin_loop_vertices self (with_bounds mesh (Ok None)) mesh eq_refl).
      reflexivity.
    + intros errors warnings H.
      apply run_validation_checks_Ok in H
        as (wt & wc & k & deg & dups & _ & _ & _ & _ & _ & -> & ->).
      unfold errors_of, warnings_of, thin_wall_issues, self_intersecting_proxy.
      rewrite Hb.
      destruct wt, wc, (0 <? length deg), (1 <? k), (0 <? length dups),
        (0 <? length (_detect_thin_walls self mesh run)); reflexivity.
  - intros e Hs. split.
    + rewrite !run_validation_checks_nf.
      unfold _detect_thin_walls, with_sample. cbn [sample]. rewrite Hs. reflexivity.
    + intros errors warnings H.
      apply run_validation_checks_Ok in H
        as (wt & wc & k & deg & dups & _ & _ & _ & _ & _ & -> & ->).
      unfold _detect_thin_walls. rewrite Hs.
      unfold errors_of, warnings_of, thin_wall_issues.
      destruct wt, wc, (self_intersecting_proxy mesh), (0 <? length deg), (1 <? k),
        (0 <? length dups); reflexivity.
  - intros e load filename Hload H.
    destruct (run_validation_checks_raises str_float self mesh run e H) as [e' He'].
    exists e'. split; [assumption|].
    now rewrite (validate_mesh_loaded _ _ _ _ _ _ Hload), He'.
  - intros load Hload.
    destruct (load_mesh_has_vertices _ _ Hload) as (v & vs & Hv).
    unfold _find_duplicate_vertices. rewrite Hv. cbn [getattr bind]. eauto.
Qed.

Lemma check_failure_handling_witness :
  exists e',
    _run_validation_checks Examples.str_float MeshValidator_default Examples.point_cloud
      (Examples.run_sampling "run-1" (Raise "sampling failed")) = Raise e' /\
    validate_mesh Examples.str_float MeshValidator_default
      (Examples.run_sampling "run-1" (Raise "sampling failed"))
      (Ok (trimesh.Geometry Examples.point_cloud)) "cloud.ply"
    = failure_report (Examples.run_sampling "run-1" (Raise "sampling failed"))
        "cloud.ply" e'.
Proof.
  destruct (check_failure_handling Examples.str_float MeshValidator_default
              Examples.point_cloud
              (Examples.run_sampling "run-1" (Raise "sampling failed")))
    as (_ & _ & H & _).
  apply (H "'PointCloud' object has no attribute 'is_watertight'"
           (Ok (trimesh.Geometry Examples.point_cloud)) "cloud.ply").
  - reflexivity.
  - left. reflexivity.
Defined.

(** ** Two runs on the same input *)

(** C5, on the code: two runs on the same cube, the 10 x 10 x 10 box of the
    repository's tests, one whose surface sample falls at the centres of the
    faces and one whose sample falls near a corner, differ in their warnings
    and in their decision: the sample is drawn without a seed. *)
Lemma same_input_different_reports :
  let first :=
    validate_mesh Examples.str_float MeshValidator_default
      (Examples.run_sampling "run-1" (Ok Examples.cube_face_centres))
      (Ok (trimesh.Geometry Examples.cube)) "cube.stl" in
  let second :=
    validate_mesh Examples.str_float MeshValidator_default
      (Examples.run_sampling "run-2" (Ok Examples.cube_near_corner))
      (Ok (trimesh.Geometry Examples.cube)) "cube.stl" in
  warnings first = [] /\
  decision first = ALLOW /\
  warnings second =
    [ValidationIssue_ THIN_WALL "Detected 1 regions with thickness < 0.5mm" (Some 1)] /\
  decision second = ALLOW_WITH_WARNINGS.
Proof. vm_compute. repeat split. Qed.

Lemma warnings_of_but_thin_wall (str_float : float -> string) (self : MeshValidator)
    (n : nat) (dups : list nat) (thin thin' : list thin_region) :
  filter (fun issue => negb (has_code THIN_WALL issue))
    (warnings_of str_float self n dups thin)
  = filter (fun issue => negb (has_code THIN_WALL issue))
      (warnings_of str_float self n dups thin').
Proof.
  unfold warnings_of, thin_wall_issues.
  destruct (1 <? n), (0 <? length dups), (0 <? length thin), (0 <? length thin');
    reflexivity.
Qed.

(** What two runs on the same input do share: the metrics and the errors,
    and the warnings but for the THIN_WALL warning; when the two runs draw
    the same surface sample, they give the same warnings and the same
    decision as well. The id, the duration and the timestamp belong to the
    run. *)
Lemma validate_mesh_repeatable (str_float : float -> string) (self : MeshValidator)
    (run1 run2 : Run) (load : result trimesh.Loaded) (filename : string) :
  let report1 := validate_mesh str_float self run1 load filename in
  let report2 := validate_mesh str_float self run2 load filename in
  metrics report1 = metrics report2 /\
  errors report1 = errors report2 /\
  filter (fun issue => negb (has_code THIN_WALL issue)) (warnings report1)
  = filter (fun issue => negb (has_code THIN_WALL issue)) (warnings report2) /\
  (sample run1 1000 = sample run2 1000 ->
   warnings report1 = warnings report2 /\ decision report1 = decision report2).
Proof.
  intros report1 report2. subst report1 report2.
  destruct (_load_mesh load) as [mesh|e] eqn:Hload.
  - rewrite !(validate_mesh_loaded _ _ _ _ _ _ Hload), !run_validation_checks_nf.
    destruct (trimesh.is_watertight mesh) as [wt|e]; [|repeat split].
    destruct (trimesh.is_winding_consistent mesh) as [wc|e]; [|repeat split].
    destruct (trimesh.split mesh) as [n|e]; [|repeat split].
    destruct (_find_degenerate_faces mesh) as [deg|e]; [|repeat split].
    destruct (_find_duplicate_vertices mesh) as [dups|e]; [|repeat split].
    cbn [bind models.metrics models.errors models.warnings models.decision].
    split; [reflexivity|]. split; [reflexivity|]. split.
    + apply warnings_of_but_thin_wall.
    + intro Hs. unfold _detect_thin_walls. rewrite Hs. split; reflexivity.
  - unfold validate_mesh, validate_mesh_try. rewrite Hload. repeat split.
Qed.

Lemma validate_mesh_repeatable_witness :
  let report1 :=
    validate_mesh Examples.str_float MeshValidator_default
      (Examples.run_sampling "run-1" (Ok Examples.cube_near_corner))
      (Ok (trimesh.Geometry Examples.cube)) "cube.stl" in
  let report2 :=
    validate_mesh Examples.str_float MeshValidator_default
      (Examples.run_sampling "run-2" (Ok Examples.cube_near_corner))
      (Ok (trimesh.Geometry Examples.cube)) "cube.stl" in
  warnings report1 = warnings report2 /\ decision report1 = decision report2.
Proof.
  destruct (validate_mesh_repeatable Examples.str_float MeshValidator_default
              (Examples.run_sampling "run-1" (Ok Examples.cube_near_corner))
              (Examples.run_sampling "run-2" (Ok Examples.cube_near_corner))
              (Ok (trimesh.Geometry Examples.cube)) "cube.stl")
    as (_ & _ & _ & H).
  apply H. reflexivity.
Defined.

(** * Further properties of the validator *)

(** ** Duplicate vertices *)

Lemma duplicate_loop_spec (vs : list vec3) :
  forall i acc, duplicate_loop vs i acc = acc ++ duplicate_indices vs i.
Proof.
  induction vs as [|v vs IH]; intros i acc; simpl.
  - now rewrite app_nil_r.
  - change (existsb (fun vj => (norm_1d (vsub v vj) <? 1e-6)%float) vs)
      with (existsb (near v) vs).
    destruct (existsb (near v) vs); rewrite IH; [|reflexivity].
    now rewrite <- app_assoc.
Qed.

Lemma duplicate_indices_In (vs : list vec3) :
  forall i k,
    In k (duplicate_indices vs i) <->
    exists vk, nth_error vs (k - i) = Some vk /\ i <= k /\
      exists j vj, k - i < j /\ nth_error vs j = Some vj /\ near vk vj = true.
Proof.
  induction vs as [|v vs IH]; intros i k; simpl.
  - split; [contradiction|]. intros (vk & H & _). now destruct (k - i).
  - assert (Hhead : existsb (near v) vs = true <->
                    exists j vj, 0 < j /\ nth_error (v :: vs) j = Some vj /\ near v vj = true).
    { rewrite existsb_exists. split.
      - intros (vj & Hin & Hn). apply In_nth_error in Hin as [j Hj].
        exists (S j), vj. repeat split; [lia | assumption | assumption].
      - intros (j & vj & Hj & Hnth & Hn). destruct j as [|j]; [lia|].
        exists vj. simpl in Hnth. split; [now apply nth_error_In in Hnth | assumption]. }
    assert (Htail : In k (duplicate_indices vs (S i)) <->
                    exists vk, nth_error (v :: vs) (k - i) = Some vk /\ i < k /\
                      exists j vj, k - i < j /\ nth_error (v :: vs) j = Some vj /\
                        near vk vj = true).
    { rewrite IH. split.
      - intros (vk & Hk & Hle & j & vj & Hj & Hnth & Hn).
        exists vk. replace (k - i) with (S (k - S i)) by lia.
        repeat split; [assumption | lia |].
        exists (S j), vj. repeat split; [lia | assumption | assumption].
      - intros (vk & Hk & Hlt & j & vj & Hj & Hnth & Hn).
        replace (k - i) with (S (k - S i)) in * by lia.
        exists vk. repeat split; [assumption | lia |].
        destruct j as [|j]; [lia|].
        exists j, vj. repeat split; [lia | assumption | assumption]. }
    destruct (existsb (near v) vs) eqn:E; simpl; rewrite Htail; split.
    + intros [<-|(vk & Hk & Hlt & Hex)].
      * exists v. rewrite Nat.sub_diag. repeat split; [lia|]. now apply Hhead.
      * exists vk. repeat split; [assumption | lia | assumption].
    + intros (vk & Hk & Hle & Hex).
      destruct (Nat.eq_dec i k) as [->|Hne]; [now left|].
      right. exists vk. repeat split; [assumption | lia | assumption].
    + intros (vk & Hk & Hlt & Hex). exists vk. repeat split; [assumption | lia | assumption].
    + intros (vk & Hk & Hle & Hex).
      destruct (Nat.eq_dec i k) as [->|Hne].
      * rewrite Nat.sub_diag in *. simpl in Hk. injection Hk as <-.
        apply Hhead in Hex. congruence.
      * exists vk. repeat split; [assumption | lia | assumption].
Qed.

Lemma duplicate_indices_bounds (vs : list vec3) :
  forall i k, In k (duplicate_indices vs i) -> i <= k /\ S k < i + length vs.
Proof.
  intros i k H. apply duplicate_indices_In in H as (vk & Hk & Hle & j & vj & Hj & Hnth & _).
  split; [assumption|].
  assert (j < length vs) by (apply nth_error_Some; congruence). lia.
Qed.

Lemma duplicate_indices_sorted (vs : list vec3) :
  forall i, StronglySorted lt (duplicate_indices vs i).
Proof.
  induction vs as [|v vs IH]; intro i; simpl; [constructor|].
  destruct (existsb (near v) vs); [|apply IH].
  constructor; [apply IH|].
  apply Forall_forall. intros k Hk. apply duplicate_indices_bounds in Hk. lia.
Qed.

Lemma duplicate_indices_length (vs : list vec3) :
  forall i, length (duplicate_indices vs i) <= pred (length vs).
Proof.
  induction vs as [|v vs IH]; intro i; simpl; [lia|].
  destruct vs as [|w vs]; [simpl; lia|].
  destruct (existsb (near v) (w :: vs)); simpl; specialize (IH (S i)); simpl in IH; lia.
Qed.

(** X1: [_find_duplicate_vertices] never raises on an object with vertices;
    it reports the index of a vertex exactly when a later vertex lies within
    1e-6 of it, each index once and in increasing order, so the last vertex
    of the mesh is never reported and at most [len(vertices) - 1] indices
    are. *)
Theorem find_duplicate_vertices_spec (mesh : Trimesh) (vs : list vec3) :
  trimesh.vertices mesh = Some vs ->
  exists duplicates,
    _find_duplicate_vertices mesh = Ok duplicates /\
    (forall i, In i duplicates <->
       exists vi, nth_error vs i = Some vi /\
         exists j vj, i < j /\ nth_error vs j = Some vj /\
           (norm_1d (vsub vi vj) <? 1e-6)%float = true) /\
    StronglySorted lt duplicates /\
    length duplicates <= pred (length vs).
Proof.
  intro Hv. exists (duplicate_indices vs 0).
  unfold _find_duplicate_vertices. rewrite Hv. cbn [getattr bind].
  rewrite duplicate_loop_spec. cbn [app].
  repeat split.
  - intro H. apply duplicate_indices_In in H as (vi & Hi & _ & Hex).
    rewrite Nat.sub_0_r in *. eauto.
  - intros (vi & Hi & Hex). apply duplicate_indices_In.
    exists vi. rewrite Nat.sub_0_r. repeat split; [assumption | lia | assumption].
  - apply duplicate_indices_sorted.
  - apply duplicate_indices_length.
Qed.

Lemma find_duplicate_vertices_spec_witness :
  exists duplicates,
    _find_duplicate_vertices Examples.coincident = Ok duplicates /\
    (forall i, In i duplicates <->
       exists vi, nth_error Examples.coincident_vertices i = Some vi /\
         exists j vj, i < j /\ nth_error Examples.coincident_vertices j = Some vj /\
           (norm_1d (vsub vi vj) <? 1e-6)%float = true) /\
    StronglySorted lt duplicates /\
    length duplicates <= pred (length Examples.coincident_vertices).
Proof.
  exact (find_duplicate_vertices_spec Examples.coincident Examples.coincident_vertices
           eq_refl).
Defined.

Lemma warnings_of_duplicates (str_float : float -> string) (self : MeshValidator)
    (n : nat) (dups : list nat) (thin : list thin_region) :
  filter (has_code DUPLICATE_VERTICES) (warnings_of str_float self n dups thin)
  = if 0 <? length dups
    then [ValidationIssue_ DUPLICATE_VERTICES
            ("Found " ++ str_nat (length dups) ++ " duplicate vertices")%string
            (Some (length dups))]
    else [].
Proof.
  unfold warnings_of, thin_wall_issues.
  destruct (1 <? n), (0 <? length dups), (0 <? length thin); reflexivity.
Qed.

Lemma errors_of_duplicates (mesh : Trimesh) (wt wc : bool) (deg : list nat) :
  filter (has_code DUPLICATE_VERTICES) (errors_of mesh wt wc deg) = [].
Proof.
  unfold errors_of.
  destruct wt, wc, (self_intersecting_proxy mesh), (0 <? length deg); reflexivity.
Qed.

(** X2: when the check engine completes, the warnings list holds one
    DUPLICATE_VERTICES issue exactly when two vertices of different index lie
    within 1e-6 of each other; its count is the number of vertices that have
    a later vertex within 1e-6, so [k] coincident vertices count for
    [k - 1]. The errors list never holds that code. *)
Theorem duplicate_vertices_check (str_float : float -> string) (self : MeshValidator)
    (mesh : Trimesh) (run : Run) (vs : list vec3)
    (errors warnings : list ValidationIssue) :
  trimesh.vertices mesh = Some vs ->
  _run_validation_checks str_float self mesh run = Ok (errors, warnings) ->
  let n := length (duplicate_indices vs 0) in
  filter (has_code DUPLICATE_VERTICES) warnings
  = (if 0 <? n
     then [{| code := DUPLICATE_VERTICES;
              message := ("Found " ++ str_nat n ++ " duplicate vertices")%string;
              severity := error; count := Some n; locations := None |}]
     else []) /\
  filter (has_code DUPLICATE_VERTICES) errors = [] /\
  (0 < n <->
   exists i j vi vj,
     i < j /\ nth_error vs i = Some vi /\ nth_error vs j = Some vj /\
     (norm_1d (vsub vi vj) <? 1e-6)%float = true) /\
  n <= pred (length vs).
Proof.
  intros Hv H n.
  apply run_validation_checks_Ok in H
    as (wt & wc & k & deg & dups & _ & _ & _ & _ & Hdups & -> & ->).
  unfold _find_duplicate_vertices in Hdups. rewrite Hv in Hdups. cbn [getattr bind] in Hdups.
  rewrite duplicate_loop_spec in Hdups. injection Hdups as <-. cbn [app]. fold n.
  repeat split.
  - apply warnings_of_duplicates.
  - apply errors_of_duplicates.
  - intro Hn. subst n. destruct (duplicate_indices vs 0) as [|i l] eqn:E; [simpl in Hn; lia|].
    assert (Hi : In i (duplicate_indices vs 0)) by (rewrite E; now left).
    apply duplicate_indices_In in Hi as (vi & Hi & _ & j & vj & Hj & Hnth & Hnear).
    rewrite Nat.sub_0_r in *. exists i, j, vi, vj. repeat split; assumption.
  - intros (i & j & vi & vj & Hij & Hi & Hj & Hnear).
    assert (Hin : In i (duplicate_indices vs 0)).
    { apply duplicate_indices_In. exists vi. rewrite Nat.sub_0_r.
      repeat split; [assumption | lia |]. exists j, vj. repeat split; assumption. }
    subst n. destruct (duplicate_indices vs 0); [contradiction | simpl; lia].
  - apply duplicate_indices_length.
Qed.

Lemma duplicate_vertices_check_witness :
  filter (has_code DUPLICATE_VERTICES)
    (warnings (validate_mesh Examples.str_float MeshValidator_default
                 (Examples.run_sampling "run-1" (Ok []))
                 (Ok (trimesh.Geometry Examples.coincident)) "fan.stl"))
  = [{| code := DUPLICATE_VERTICES; message := "Found 2 duplicate vertices";
        severity := error; count := Some 2; locations := None |}].
Proof.
  refine (proj1 (duplicate_vertices_check Examples.str_float MeshValidator_default
                   Examples.coincident (Examples.run_sampling "run-1" (Ok []))
                   Examples.coincident_vertices _ _ eq_refl _)).
  reflexivity.
Defined.

(** ** Degenerate faces *)

Lemma np_getitem_spec {A : Type} (a : list A) (i : Z) (x : A) :
  np_getitem a i = Ok x <->
  in_range (length a) i /\
  nth_error a (Z.to_nat (i mod Z.of_nat (length a))) = Some x.
Proof.
  unfold np_getitem, in_range.
  destruct (i <? 0)%Z eqn:Eneg.
  - apply Z.ltb_lt in Eneg.
    destruct ((0 <=? i + Z.of_nat (length a))%Z && (i + Z.of_nat (length a) <? Z.of_nat (length a))%Z)%bool
      eqn:E.
    + apply andb_true_iff in E as [E1 E2]. apply Z.leb_le in E1. apply Z.ltb_lt in E2.
      replace (i mod Z.of_nat (length a))%Z with (i + Z.of_nat (length a))%Z
        by (apply Z.mod_unique with (q := (-1)%Z); lia).
      destruct (nth_error a (Z.to_nat (i + Z.of_nat (length a)))) as [y|] eqn:En.
      * split; [intro H; injection H as <-; split; [lia | reflexivity]|].
        intros [_ H]. congruence.
      * split; [discriminate | intros [_ H]; discriminate].
    + split; [discriminate|]. intros [Hr _].
      apply andb_false_iff in E as [E|E]; [apply Z.leb_gt in E | apply Z.ltb_ge in E]; lia.
  - apply Z.ltb_ge in Eneg.
    destruct ((0 <=? i)%Z && (i <? Z.of_nat (length a))%Z)%bool eqn:E.
    + apply andb_true_iff in E as [E1 E2]. apply Z.ltb_lt in E2.
      rewrite Z.mod_small by lia.
      destruct (nth_error a (Z.to_nat i)) as [y|] eqn:En.
      * split; [intro H; injection H as <-; split; [lia | reflexivity]|].
        intros [_ H]. congruence.
      * split; [discriminate | intros [_ H]; discriminate].
    + split; [discriminate|]. intros [Hr _].
      apply andb_false_iff in E as [E|E]; [apply Z.leb_gt in E | apply Z.ltb_ge in E]; lia.
Qed.

Lemma index_ok_in_range {A : Type} (a : list A) (i : Z) :
  index_ok a i = true <-> in_range (length a) i.
Proof.
  unfold index_ok. destruct (np_getitem a i) as [x|e] eqn:E.
  - apply np_getitem_spec in E as [Hr _]. tauto.
  - split; [discriminate|]. intro Hr. exfalso.
    assert (Hlt : Z.to_nat (i mod Z.of_nat (length a)) < length a).
    { unfold in_range in Hr.
      pose proof (Z.mod_pos_bound i (Z.of_nat (length a))). lia. }
    apply nth_error_Some in Hlt.
    destruct (nth_error a (Z.to_nat (i mod Z.of_nat (length a)))) as [x|] eqn:En;
      [|congruence].
    assert (Hx : np_getitem a i = Ok x) by (apply np_getitem_spec; now split).
    congruence.
Qed.

Lemma valid_faces_in_range (vs : list vec3) (fs : list (Z * Z * Z)) :
  valid_faces vs fs = true <-> Forall (face_in_range (length vs)) fs.
Proof.
  unfold valid_faces. rewrite forallb_forall, Forall_forall.
  split; intros H [[a b] c] Hin; specialize (H (a, b, c) Hin); simpl in *.
  - apply andb_true_iff in H as [H Hc]. apply andb_true_iff in H as [Ha Hb].
    repeat split; now apply index_ok_in_range.
  - destruct H as (Ha & Hb & Hc).
    apply index_ok_in_range in Ha, Hb, Hc. now rewrite Ha, Hb, Hc.
Qed.

Lemma degenerate_indices_In (vs : list vec3) (fs : list (Z * Z * Z)) :
  forall i k,
    In k (degenerate_indices vs fs i) <->
    i <= k /\ exists f, nth_error fs (k - i) = Some f /\ is_degenerate vs f = true.
Proof.
  induction fs as [|f fs IH]; intros i k; simpl.
  - split; [contradiction|]. intros (_ & f & H & _). now destruct (k - i).
  - assert (Htail : In k (degenerate_indices vs fs (S i)) <->
                    i < k /\ exists g, nth_error (f :: fs) (k - i) = Some g /\
                                       is_degenerate vs g = true).
    { rewrite IH. split; intros (Hle & g & Hg & Hd).
      - split; [lia|]. exists g. replace (k - i) with (S (k - S i)) by lia. now split.
      - split; [lia|]. exists g. replace (k - i) with (S (k - S i)) in Hg by lia. now split. }
    destruct (is_degenerate vs f) eqn:E; simpl; rewrite Htail; split.
    + intros [<-|(Hlt & Hex)]; [|split; [lia | assumption]].
      split; [lia|]. exists f. now rewrite Nat.sub_diag.
    + intros (Hle & Hex). destruct (Nat.eq_dec i k) as [->|Hne]; [now left|].
      right. split; [lia | assumption].
    + intros (Hlt & Hex). split; [lia | assumption].
    + intros (Hle & g & Hg & Hd). destruct (Nat.eq_dec i k) as [->|Hne].
      * rewrite Nat.sub_diag in Hg. simpl in Hg. congruence.
      * split; [lia|]. now exists g.
Qed.

Lemma degenerate_indices_sorted (vs : list vec3) (fs : list (Z * Z * Z)) :
  forall i, StronglySorted lt (degenerate_indices vs fs i).
Proof.
  induction fs as [|f fs IH]; intro i; simpl; [constructor|].
  destruct (is_degenerate vs f); [|apply IH].
  constructor; [apply IH|].
  apply Forall_forall. intros k Hk. apply degenerate_indices_In in Hk. lia.
Qed.

Lemma first_index_error_Some (vs : list vec3) (fs : list (Z * Z * Z)) (e : string) :
  first_index_error vs fs = Some e ->
  exists a b c i,
    In (a, b, c) fs /\ In i [a; b; c] /\ ~ in_range (length vs) i /\
    e = index_error i (length vs).
Proof.
  assert (Hbad : forall i e', np_getitem vs i = Raise e' ->
                   ~ in_range (length vs) i /\ e' = index_error i (length vs)).
  { intros i e' H. split; [|now apply np_getitem_raise in H].
    intro Hr. apply index_ok_in_range in Hr. unfold index_ok in Hr.
    rewrite H in Hr. discriminate. }
  induction fs as [|[[a b] c] fs IH]; simpl; [discriminate|].
  destruct (np_getitem vs a) as [v0|e0] eqn:Ea.
  2:{ intros [= <-]. destruct (Hbad _ _ Ea). exists a, b, c, a. simpl. auto. }
  destruct (np_getitem vs b) as [v1|e1] eqn:Eb.
  2:{ intros [= <-]. destruct (Hbad _ _ Eb). exists a, b, c, b. simpl. auto. }
  destruct (np_getitem vs c) as [v2|e2] eqn:Ec.
  2:{ intros [= <-]. destruct (Hbad _ _ Ec). exists a, b, c, c. simpl. auto 6. }
  intro H. destruct (IH H) as (a' & b' & c' & i & Hin & Hi & Hr & He).
  exists a', b', c', i. simpl. auto.
Qed.

(** X3: when some face holds an index outside [-len(vertices),
    len(vertices))], [_find_degenerate_faces] raises IndexError, with
    numpy's message for such an index of some face; a negative index in that
    range counts from the end; otherwise it returns, each once and in
    increasing order, the positions of the faces whose area, half the norm
    of the cross product as [np.linalg.norm] computes it, is below 1e-10. *)
Theorem find_degenerate_faces_spec (mesh : Trimesh) (vs : list vec3)
    (fs : list (Z * Z * Z)) :
  trimesh.vertices mesh = Some vs ->
  trimesh.faces mesh = Some fs ->
  (Forall (face_in_range (length vs)) fs ->
   exists degenerate,
     _find_degenerate_faces mesh = Ok degenerate /\
     (forall k, In k degenerate <->
        exists f, nth_error fs k = Some f /\ is_degenerate vs f = true) /\
     StronglySorted lt degenerate) /\
  (Exists (fun f => ~ face_in_range (length vs) f) fs ->
   exists a b c i,
     In (a, b, c) fs /\ In i [a; b; c] /\ ~ in_range (length vs) i /\
     _find_degenerate_faces mesh = Raise (index_error i (length vs))) /\
  (forall i, in_range (length vs) i ->
     np_getitem vs i = Ok (nth (Z.to_nat (i mod Z.of_nat (length vs))) vs (0, 0, 0)%float)).
Proof.
  intros Hv Hf.
  assert (Hspec : _find_degenerate_faces mesh =
                  match first_index_error vs fs with
                  | None => Ok (degenerate_indices vs fs 0)
                  | Some e => Raise e
                  end).
  { unfold _find_degenerate_faces. rewrite Hv, Hf. cbn [getattr bind].
    now rewrite degenerate_loop_spec. }
  split; [|split].
  - intro Hall. apply valid_faces_in_range, valid_faces_first_index_error in Hall.
    exists (degenerate_indices vs fs 0). rewrite Hspec, Hall.
    repeat split.
    + intro H. apply degenerate_indices_In in H as (_ & f & Hk & Hd).
      rewrite Nat.sub_0_r in Hk. eauto.
    + intros (f & Hk & Hd). apply degenerate_indices_In.
      split; [lia|]. exists f. now rewrite Nat.sub_0_r.
    + apply degenerate_indices_sorted.
  - intro Hex. rewrite Hspec.
    destruct (first_index_error vs fs) as [e|] eqn:E.
    + destruct (first_index_error_Some _ _ _ E) as (a & b & c & i & Hin & Hi & Hr & ->).
      exists a, b, c, i. auto.
    + apply valid_faces_first_index_error, valid_faces_in_range in E.
      rewrite Forall_forall in E.
      apply Exists_exists in Hex as (f & Hin & Hbad). exfalso. apply Hbad. now apply E.
  - intros i Hr.
    assert (Hlt : Z.to_nat (i mod Z.of_nat (length vs)) < length vs).
    { unfold in_range in Hr.
      pose proof (Z.mod_pos_bound i (Z.of_nat (length vs))). lia. }
    apply np_getitem_spec. split; [assumption|].
    now apply nth_error_nth'.
Qed.

Lemma find_degenerate_faces_spec_witness :
  exists degenerate,
    _find_degenerate_faces Examples.coincident = Ok degenerate /\
    (forall k, In k degenerate <->
       exists f, nth_error [(0, 2, 4); (1, 2, 4); (3, 2, -1)]%Z k = Some f /\
                 is_degenerate Examples.coincident_vertices f = true) /\
    StronglySorted lt degenerate.
Proof.
  apply (find_degenerate_faces_spec Examples.coincident Examples.coincident_vertices
           [(0, 2, 4); (1, 2, 4); (3, 2, -1)]%Z eq_refl eq_refl).
  repeat constructor; simpl; lia.
Defined.

(** ** Loading *)

Lemma max_by_vertices_spec (gs : list Trimesh) :
  forall best,
    (max_by_vertices best gs = best /\
     forall g, In g gs -> len_vertices g <= len_vertices best) \/
    (exists pre post,
       gs = pre ++ max_by_vertices best gs :: post /\
       len_vertices best < len_vertices (max_by_vertices best gs) /\
       (forall g, In g pre -> len_vertices g < len_vertices (max_by_vertices best gs)) /\
       (forall g, In g post -> len_vertices g <= len_vertices (max_by_vertices best gs))).
Proof.
  induction gs as [|g gs IH]; intro best; simpl.
  - left. split; [reflexivity | contradiction].
  - destruct (len_vertices best <? len_vertices g) eqn:E.
    + apply Nat.ltb_lt in E. right.
      destruct (IH g) as [[Heq Hle]|(pre & post & Hgs & Hlt & Hpre & Hpost)].
      * exists [], gs. rewrite Heq. repeat split; try assumption. contradiction.
      * exists (g :: pre), post. repeat split.
        -- simpl. now rewrite <- Hgs.
        -- lia.
        -- intros h [<-|Hh]; [assumption | now apply Hpre].
        -- assumption.
    + apply Nat.ltb_ge in E.
      destruct (IH best) as [[Heq Hle]|(pre & post & Hgs & Hlt & Hpre & Hpost)].
      * left. split; [assumption|]. intros h [<-|Hh]; [assumption | now apply Hle].
      * right. exists (g :: pre), post. repeat split.
        -- simpl. now rewrite <- Hgs.
        -- assumption.
        -- intros h [<-|Hh]; [lia | now apply Hpre].
        -- assumption.
Qed.

Lemma filter_split {A : Type} (p : A -> bool) (l : list A) :
  forall pre x post,
    filter p l = pre ++ x :: post ->
    exists pre' post',
      l = pre' ++ x :: post' /\ filter p pre' = pre /\ filter p post' = post.
Proof.
  induction l as [|a l IH]; intros pre x post H; simpl in H.
  - now destruct pre.
  - destruct (p a) eqn:E.
    + destruct pre as [|b pre]; simpl in H; injection H as -> H.
      * exists [], l. repeat split. assumption.
      * destruct (IH pre x post H) as (pre' & post' & -> & Hpre & Hpost).
        exists (b :: pre'), post'. repeat split; [|assumption].
        simpl. now rewrite E, Hpre.
    + destruct (IH pre x post H) as (pre' & post' & -> & Hpre & Hpost).
      exists (a :: pre'), post'. repeat split; [|assumption].
      simpl. now rewrite E.
Qed.

(** X4: from a scene, [_load_mesh] returns the first geometry of greatest
    vertex count among those that have vertices: every geometry before it
    has fewer vertices, none after it has more, and it has at least one
    vertex. *)
Theorem load_mesh_scene_selection (geometry : list Trimesh) (mesh : Trimesh) :
  _load_mesh (Ok (trimesh.Scene geometry)) = Ok mesh ->
  0 < len_vertices mesh /\
  exists before after,
    geometry = before ++ mesh :: after /\
    (forall g, In g before -> len_vertices g < len_vertices mesh) /\
    (forall g, In g after -> len_vertices g <= len_vertices mesh).
Proof.
  intro H.
  assert (Hpos : 0 < len_vertices mesh).
  { destruct (load_mesh_has_vertices _ _ H) as (v & vs & Hv).
    unfold len_vertices. rewrite Hv. simpl. lia. }
  split; [assumption|].
  unfold _load_mesh, _load_mesh_try in H. cbn [bind] in H.
  set (p := fun g : Trimesh => hasattr (trimesh.vertices g)) in *.
  assert (Hnone : forall g, p g = false -> len_vertices g = 0).
  { intros g Hg. unfold p, len_vertices in *. now destruct (trimesh.vertices g). }
  destruct (filter p geometry) as [|g0 gs0] eqn:Ef; [discriminate|].
  cbn [bind] in H.
  assert (Hm : mesh = max_by_vertices g0 gs0).
  { destruct (trimesh.vertices (max_by_vertices g0 gs0)) as [vs|]; [|discriminate].
    destruct (length vs =? 0); [discriminate|]. now injection H as <-. }
  clear H.
  assert (Hdec : exists pre post,
             filter p geometry = pre ++ mesh :: post /\
             (forall g, In g pre -> len_vertices g < len_vertices mesh) /\
             (forall g, In g post -> len_vertices g <= len_vertices mesh)).
  { rewrite Ef, Hm.
    destruct (max_by_vertices_spec gs0 g0) as [[Heq Hle]|(pre & post & Hgs & Hlt & Hpre & Hpost)].
    - exists [], gs0. rewrite Heq. repeat split; [contradiction | assumption].
    - exists (g0 :: pre), post. repeat split.
      + simpl. now rewrite <- Hgs.
      + intros h [<-|Hh]; [assumption | now apply Hpre].
      + assumption. }
  destruct Hdec as (pre & post & Hfil & Hpre & Hpost).
  destruct (filter_split p geometry pre mesh post Hfil) as (before & after & -> & Hb & Ha).
  exists before, after. repeat split.
  - intros g Hg. destruct (p g) eqn:Eg.
    + apply Hpre. rewrite <- Hb. now apply filter_In.
    + rewrite (Hnone g Eg). assumption.
  - intros g Hg. destruct (p g) eqn:Eg.
    + apply Hpost. rewrite <- Ha. now apply filter_In.
    + rewrite (Hnone g Eg). lia.
Qed.

Lemma load_mesh_scene_selection_witness :
  0 < len_vertices Examples.cube /\
  exists before after,
    Examples.scene = before ++ Examples.cube :: after /\
    (forall g, In g before -> len_vertices g < len_vertices Examples.cube) /\
    (forall g, In g after -> len_vertices g <= len_vertices Examples.cube).
Proof.
  exact (load_mesh_scene_selection Examples.scene Examples.cube eq_refl).
Defined.

(** X5: for an object loaded directly, [_load_mesh] returns the object itself
    when it has at least one vertex and raises otherwise; whatever the file,
    a mesh that [_load_mesh] returns has at least one vertex, and the
    message of an exception that it raises starts with
    "Failed to load mesh: ". *)
Theorem load_mesh_postconditions (load : result trimesh.Loaded) :
  (forall g, load = Ok (trimesh.Geometry g) ->
     _load_mesh load =
       if 0 <? len_vertices g then Ok g
       else Raise "Failed to load mesh: Empty or invalid mesh") /\
  (forall mesh, _load_mesh load = Ok mesh ->
     exists v vs, trimesh.vertices mesh = Some (v :: vs)) /\
  (forall e, _load_mesh load = Raise e ->
     exists e0, e = ("Failed to load mesh: " ++ e0)%string /\
       (forall e1, load = Raise e1 -> e0 = e1)).
Proof.
  split; [|split].
  - intros g ->. unfold _load_mesh, _load_mesh_try, len_vertices. cbn [bind].
    destruct (trimesh.vertices g) as [[|v vs]|]; reflexivity.
  - apply load_mesh_has_vertices.
  - intros e H. apply load_mesh_prefix in H as (e0 & Htry & ->).
    exists e0. split; [reflexivity|].
    intros e1 ->. simpl in Htry. congruence.
Qed.

Lemma load_mesh_postconditions_witness :
  _load_mesh (Ok (trimesh.Geometry Examples.cube)) = Ok Examples.cube.
Proof.
  destruct (load_mesh_postconditions (Ok (trimesh.Geometry Examples.cube))) as (H & _ & _).
  exact (H Examples.cube eq_refl).
Defined.

(** ** Metrics *)

(** X6: for every object with vertices, whether the [try] block of
    [_compute_metrics] completes or not, the vertex count is the number of
    vertices, the triangle count the number of faces (0 without faces), the
    bounding box has three entries and the unit is "mm"; a volume is reported
    only for a watertight mesh and is then [mesh.volume]; the component count
    is what [mesh.split] returned, or 1; a surface area is reported only when
    the read of [mesh.surface_area] returned it. When that read raises, as it
    does on an object without the attribute, the metrics are the fallback
    ones: one component, a zero bounding box, no volume and no surface
    area. *)
Theorem compute_metrics_invariants (mesh : Trimesh) (vs : list vec3) :
  trimesh.vertices mesh = Some vs ->
  let m := _compute_metrics mesh in
  vertices m = length vs /\
  triangles m = match trimesh.faces mesh with Some fs => length fs | None => 0 end /\
  length (bbox_mm m) = 3 /\
  units m = "mm" /\
  (forall v, volume_mm3 m = Some v ->
     trimesh.is_watertight mesh = Ok true /\ trimesh.volume mesh = Ok v) /\
  (components m = 1 \/ trimesh.split mesh = Ok (components m)) /\
  (forall a, surface_area_mm2 m = Some a -> trimesh.surface_area mesh = Ok a) /\
  (forall e, trimesh.surface_area mesh = Raise e ->
     components m = 1 /\ bbox_mm m = [0; 0; 0]%float /\
     volume_mm3 m = None /\ surface_area_mm2 m = None).
Proof.
  intros Hv m. subst m. unfold _compute_metrics, _compute_metrics_try.
  rewrite Hv.
  destruct (trimesh.faces mesh) as [fs|];
    destruct (trimesh.bounds mesh) as [[[lo hi]|]|eb];
    destruct (trimesh.is_watertight mesh) as [[|]|ew];
    destruct (trimesh.volume mesh) as [v0|ev];
    destruct (trimesh.surface_area mesh) as [a0|ea];
    destruct (trimesh.split mesh) as [n0|es];
    cbn [getattr bind bbox_size_of MeshMetrics_ models.vertices models.triangles
         models.bbox_mm models.units models.volume_mm3 models.components
         models.surface_area_mm2];
    (split; [reflexivity|]; split; [reflexivity|];
     split; [try (destruct (vsub hi lo) as [[x y] z]); reflexivity|];
     split; [reflexivity|];
     split; [intros w H; try discriminate H; injection H as <-; split; reflexivity|];
     split; [auto|];
     split; [intros w H; try discriminate H; injection H as <-; reflexivity|];
     intros e H; try discriminate H; repeat split; reflexivity).
Qed.

Lemma compute_metrics_invariants_witness :
  let m := _compute_metrics Examples.cube in
  vertices m = 8 /\ triangles m = 12 /\
  components m = 1 /\ bbox_mm m = [0; 0; 0]%float /\
  volume_mm3 m = None /\ surface_area_mm2 m = None.
Proof.
  destruct (compute_metrics_invariants Examples.cube Examples.cube_vertices eq_refl)
    as (Hv & Hf & _ & _ & _ & _ & _ & H).
  split; [exact Hv|]. split; [exact Hf|].
  exact (H "'Trimesh' object has no attribute 'surface_area'" eq_refl).
Defined.

(** ** Reports *)

(** X7: in every report that [validate_mesh] returns, for a file that parses
    or not and whether the checks complete or not, the decision is the one
    [_determine_decision] gives for the errors and warnings of the report: it
    is BLOCK exactly when the errors list is non-empty, ALLOW_WITH_WARNINGS
    exactly when there are warnings and no error, and ALLOW exactly when both
    lists are empty. *)
Theorem report_decision_consistent (str_float : float -> string) (self : MeshValidator)
    (run : Run) (load : result trimesh.Loaded) (filename : string) :
  let report := validate_mesh str_float self run load filename in
  decision report = _determine_decision (errors report) (warnings report) /\
  (decision report = BLOCK <-> errors report <> []) /\
  (decision report = ALLOW_WITH_WARNINGS <->
     errors report = [] /\ warnings report <> []) /\
  (decision report = ALLOW <-> errors report = [] /\ warnings report = []).
Proof.
  intro report.
  assert (Hall : Forall (fun issue => severity issue = error) (errors report) /\
                 decision report = _determine_decision (errors report) (warnings report)).
  { subst report. destruct (_load_mesh load) as [mesh|e] eqn:Hload.
    - rewrite (validate_mesh_loaded _ _ _ _ _ _ Hload).
      destruct (_run_validation_checks str_float self mesh run) as [[es ws]|e] eqn:E.
      + split; [|reflexivity]. cbn [models.errors].
        apply check_engine_severity in E. apply Forall_app in E. tauto.
      + split; [|reflexivity]. repeat constructor.
    - unfold validate_mesh, validate_mesh_try. rewrite Hload.
      split; [|reflexivity]. repeat constructor. }
  destruct Hall as [Hsev Hdec]. split; [assumption|]. rewrite Hdec.
  unfold _determine_decision. fold (has_error_severity (errors report)).
  rewrite (has_error_severity_all_error _ Hsev).
  destruct (errors report), (warnings report); repeat split; intros; try congruence;
    try tauto;
    match goal with H : _ /\ _ |- _ => destruct H; congruence end.
Qed.

(** X8: a mesh that loads and is not watertight is blocked; when the checks
    complete, NOT_WATERTIGHT is the first error, with the number of open
    boundaries as its count where the mesh object has that attribute and no
    count otherwise. *)
Theorem open_mesh_blocked (str_float : float -> string) (self : MeshValidator)
    (run : Run) (load : result trimesh.Loaded) (filename : string) (mesh : Trimesh) :
  _load_mesh load = Ok mesh ->
  trimesh.is_watertight mesh = Ok false ->
  let report := validate_mesh str_float self run load filename in
  decision report = BLOCK /\
  (forall errors warnings,
     _run_validation_checks str_float self mesh run = Ok (errors, warnings) ->
     exists rest,
       models.errors report =
         {| code := NOT_WATERTIGHT;
            message := "Mesh is not watertight (has open boundaries)";
            severity := error;
            count := trimesh.open_boundaries mesh;
            locations := None |} :: rest).
Proof.
  intros Hload Hwt report. subst report.
  rewrite (validate_mesh_loaded _ _ _ _ _ _ Hload), run_validation_checks_nf, Hwt.
  cbn [bind].
  destruct (trimesh.is_winding_consistent mesh) as [wc|e];
    [|split; [reflexivity | discriminate]].
  destruct (trimesh.split mesh) as [n|e]; [|split; [reflexivity | discriminate]].
  destruct (_find_degenerate_faces mesh) as [deg|e];
    [|split; [reflexivity | discriminate]].
  destruct (_find_duplicate_vertices mesh) as [dups|e];
    [|split; [reflexivity | discriminate]].
  cbn [bind models.errors models.decision]. unfold errors_of. cbn [negb app].
  split; [reflexivity|]. intros errors warnings _. eauto.
Qed.

Lemma open_mesh_blocked_witness :
  decision (validate_mesh Examples.str_float MeshValidator_default
              (Examples.run_sampling "run-1" (Ok []))
              (Ok (trimesh.Geometry Examples.sliver)) "sliver.stl") = BLOCK.
Proof.
  exact (proj1 (open_mesh_blocked Examples.str_float MeshValidator_default
                  (Examples.run_sampling "run-1" (Ok []))
                  (Ok (trimesh.Geometry Examples.sliver)) "sliver.stl"
                  Examples.sliver eq_refl eq_refl)).
Defined.

(** X9: for a mesh that loads and that [mesh.split] cuts into [k > 1]
    components, when the checks complete, MULTIPLE_COMPONENTS is the first
    warning, with count [k]; the decision is then never ALLOW, and it is
    ALLOW_WITH_WARNINGS when there is no error. *)
Theorem multiple_components_warned (str_float : float -> string) (self : MeshValidator)
    (run : Run) (load : result trimesh.Loaded) (filename : string) (mesh : Trimesh)
    (k : nat) (errors warnings : list ValidationIssue) :
  _load_mesh load = Ok mesh ->
  trimesh.split mesh = Ok k ->
  1 < k ->
  _run_validation_checks str_float self mesh run = Ok (errors, warnings) ->
  let report := validate_mesh str_float self run load filename in
  (exists rest,
     models.warnings report =
       {| code := MULTIPLE_COMPONENTS;
          message := ("Mesh has " ++ str_nat k ++ " disconnected components")%string;
          severity := error; count := Some k; locations := None |} :: rest) /\
  decision report <> ALLOW /\
  (models.errors report = [] -> decision report = ALLOW_WITH_WARNINGS).
Proof.
  intros Hload Hk Hlt H report. subst report.
  rewrite (validate_mesh_loaded _ _ _ _ _ _ Hload), H.
  apply run_validation_checks_Ok in H
    as (wt & wc & k' & deg & dups & _ & _ & Hk' & _ & _ & -> & ->).
  assert (k' = k) by congruence. subst k'.
  cbn [models.errors models.warnings models.decision].
  unfold warnings_of. apply Nat.ltb_lt in Hlt. rewrite Hlt. cbn [app].
  split; [eauto|].
  unfold _determine_decision.
  destruct (errors_of mesh wt wc deg) as [|e es].
  - split; [discriminate | reflexivity].
  - split; [destruct (existsb _ _); discriminate | discriminate].
Qed.

Lemma multiple_components_warned_witness :
  decision (validate_mesh Examples.str_float MeshValidator_default
              (Examples.run_sampling "run-1" (Ok [(3, 3, 0)]%float))
              (Ok (trimesh.Geometry Examples.two_shells)) "two_shells.stl")
  = ALLOW_WITH_WARNINGS.
Proof.
  refine (proj2 (proj2 (multiple_components_warned Examples.str_float MeshValidator_default
                          (Examples.run_sampling "run-1" (Ok [(3, 3, 0)]%float))
                          (Ok (trimesh.Geometry Examples.two_shells)) "two_shells.stl"
                          Examples.two_shells 2 _ _ eq_refl eq_refl _ _)) _).
  - unfold lt. constructor.
  - reflexivity.
  - reflexivity.
Defined.

(** ** Thin walls *)

Lemma thin_loop_regions (self : MeshValidator) (mesh : Trimesh) (vs : list vec3) :
  trimesh.vertices mesh = Some vs ->
  forall (points : list vec3) (acc : list thin_region),
    thin_loop self mesh points acc
    = acc ++ map (region_of vs) (filter (is_thin self vs) points).
Proof.
  intros Hv points. induction points as [|p points IH]; intro acc; simpl.
  - now rewrite app_nil_r.
  - rewrite Hv. cbn [getattr bind].
    assert (Hthin : is_thin self vs p =
                    match argmin (distances vs p) with
                    | Ok idx => (nth idx (distances vs p) nan <? thin_wall_threshold self)%float
                    | Raise _ => false
                    end).
    { unfold is_thin, nearest_distance. destruct (argmin _); reflexivity. }
    assert (Hreg : forall idx, argmin (distances vs p) = Ok idx ->
                     region_of vs p = (tolist p, nth idx (distances vs p) nan, "surface")).
    { intros idx Hi. unfold region_of, nearest_distance. now rewrite Hi. }
    rewrite Hthin.
    destruct (argmin (distances vs p)) as [idx|e] eqn:E; cbn [bind].
    + destruct (nth idx (distances vs p) nan <? thin_wall_threshold self)%float.
      * rewrite IH, <- app_assoc. simpl. now rewrite (Hreg idx eq_refl).
      * apply IH.
    + destruct vs as [|v vs]; [|discriminate].
      replace (filter (is_thin self []) points) with (@nil vec3);
        [now rewrite app_nil_r|].
      clear. induction points as [|q points IH]; simpl; auto.
Qed.

Lemma filter_length_mono {A : Type} (p q : A -> bool) (l : list A) :
  (forall x, p x = true -> q x = true) ->
  length (filter p l) <= length (filter q l).
Proof.
  intro H. induction l as [|a l IH]; simpl; [lia|].
  destruct (p a) eqn:E.
  - rewrite (H a E). simpl. lia.
  - destruct (q a); simpl; lia.
Qed.

(** X10: [_detect_thin_walls] returns, in the order of the sample, one
    region for each of the first 10 sample points whose nearest vertex is
    closer than the threshold; the thickness of every region is below the
    threshold and its location is "surface". *)
Theorem detect_thin_walls_regions (self : MeshValidator) (mesh : Trimesh) (run : Run)
    (vs : list vec3) :
  trimesh.vertices mesh = Some vs ->
  _detect_thin_walls self mesh run
  = map (region_of vs) (filter (is_thin self vs) (evaluated_points run)) /\
  map (fun region => fst (fst region)) (_detect_thin_walls self mesh run)
  = map tolist (filter (is_thin self vs) (evaluated_points run)) /\
  Forall (fun region =>
            (snd (fst region) <? thin_wall_threshold self)%float = true /\
            snd region = "surface")
    (_detect_thin_walls self mesh run).
Proof.
  intro Hv.
  assert (Heq : _detect_thin_walls self mesh run
                = map (region_of vs) (filter (is_thin self vs) (evaluated_points run))).
  { unfold _detect_thin_walls, evaluated_points.
    destruct (sample run 1000) as [pts|e]; [|reflexivity].
    now rewrite (thin_loop_regions self mesh vs Hv). }
  split; [assumption|]. rewrite Heq. split.
  - rewrite map_map. reflexivity.
  - apply Forall_forall. intros region Hin.
    apply in_map_iff in Hin as (p & <- & Hp). apply filter_In in Hp as [_ Hp].
    unfold is_thin in Hp. unfold region_of. simpl.
    destruct (nearest_distance vs p); [now split | discriminate].
Qed.

Lemma detect_thin_walls_regions_witness :
  map (fun region => fst (fst region))
    (_detect_thin_walls MeshValidator_default Examples.cube
       (Examples.run_sampling "run-1"
          (Ok (Examples.cube_face_centres ++ Examples.cube_near_corner))))
  = map tolist
      (filter (is_thin MeshValidator_default Examples.cube_vertices)
         (evaluated_points
            (Examples.run_sampling "run-1"
               (Ok (Examples.cube_face_centres ++ Examples.cube_near_corner))))).
Proof.
  exact (proj1 (proj2 (detect_thin_walls_regions MeshValidator_default Examples.cube
                         (Examples.run_sampling "run-1"
                            (Ok (Examples.cube_face_centres ++ Examples.cube_near_corner)))
                         Examples.cube_vertices eq_refl))).
Defined.

(** X11: a greater thin-wall threshold never finds fewer thin regions in the
    same run, and a validator whose threshold is a NaN finds none. *)
Theorem thin_wall_threshold_monotone (self self' : MeshValidator) (mesh : Trimesh)
    (run : Run) :
  ((thin_wall_threshold self <? thin_wall_threshold self')%float = true ->
   length (_detect_thin_walls self mesh run) <= length (_detect_thin_walls self' mesh run)) /\
  (PrimFloat.is_nan (thin_wall_threshold self) = true ->
   _detect_thin_walls self mesh run = []).
Proof.
  destruct (trimesh.vertices mesh) as [vs|] eqn:Hv.
  - split.
    + intro Hlt. rewrite !(detect_thin_walls_length _ mesh run vs Hv).
      apply filter_length_mono. intros p Hp. unfold is_thin in *.
      destruct (nearest_distance vs p) as [d|]; [|discriminate].
      now apply (ltb_trans d (thin_wall_threshold self)).
    + intro Hnan. apply length_zero_iff_nil.
      rewrite (detect_thin_walls_length _ mesh run vs Hv).
      replace (filter (is_thin self vs) (evaluated_points run)) with (@nil vec3);
        [reflexivity|].
      symmetry. induction (evaluated_points run) as [|p l IH]; [reflexivity|].
      simpl. unfold is_thin at 1.
      destruct (nearest_distance vs p) as [d|]; [|assumption].
      now rewrite (ltb_nan_r d _ Hnan).
  - assert (Hnone : forall s, _detect_thin_walls s mesh run = []).
    { intro s. unfold _detect_thin_walls.
      destruct (sample run 1000) as [pts|e]; [|reflexivity].
      destruct (firstn 10 pts) as [|p l]; [reflexivity|].
      simpl. now rewrite Hv. }
    rewrite !Hnone. split; intros _; [simpl; lia | reflexivity].
Qed.

Lemma thin_wall_threshold_monotone_witness :
  length (_detect_thin_walls MeshValidator_default Examples.cube
            (Examples.run_sampling "run-1" (Ok Examples.cube_face_centres)))
  <= length (_detect_thin_walls
               {| thin_wall_threshold := 8; min_volume_threshold := 1;
                  max_file_size_mb := 100 |}
               Examples.cube
               (Examples.run_sampling "run-1" (Ok Examples.cube_face_centres))).
Proof.
  apply (thin_wall_threshold_monotone MeshValidator_default
           {| thin_wall_threshold := 8; min_volume_threshold := 1;
              max_file_size_mb := 100 |}
           Examples.cube (Examples.run_sampling "run-1" (Ok Examples.cube_face_centres))).
  reflexivity.
Defined.

(** * Properties of the endpoints *)

(** ** The report store *)

Lemma contains_In (d : main.Dict) (key : string) :
  main.contains d key = true <-> In key (map fst d).
Proof.
  unfold main.contains. rewrite existsb_exists, in_map_iff.
  split; intros (item & H1 & H2).
  - exists item. split; [now apply String.eqb_eq | assumption].
  - exists item. split; [assumption | now apply String.eqb_eq].
Qed.

Lemma getitem_contains (d : main.Dict) (key : string) :
  main.contains d key = true -> exists report, main.getitem d key = Ok report.
Proof.
  induction d as [|[k v] d IH]; simpl; [discriminate|].
  destruct (String.eqb k key); simpl; eauto.
Qed.

Lemma getitem_absent (d : main.Dict) (key : string) :
  main.contains d key = false -> main.getitem d key = Raise key.
Proof.
  induction d as [|[k v] d IH]; simpl; [reflexivity|].
  destruct (String.eqb k key); simpl; [discriminate | assumption].
Qed.

Lemma contains_setitem (d : main.Dict) (key key' : string) (value : ValidationReport) :
  main.contains (main.setitem d key value) key'
  = (String.eqb key key' || main.contains d key')%bool.
Proof.
  induction d as [|[k v] d IH]; simpl.
  - now rewrite orb_false_r.
  - destruct (String.eqb k key) eqn:E; simpl.
    + apply String.eqb_eq in E. subst k. now destruct (String.eqb key key').
    + rewrite IH. now destruct (String.eqb k key'), (String.eqb key key').
Qed.

Lemma getitem_setitem (d : main.Dict) (key key' : string) (value : ValidationReport) :
  main.getitem (main.setitem d key value) key'
  = if String.eqb key key' then Ok value else main.getitem d key'.
Proof.
  induction d as [|[k v] d IH]; simpl.
  - destruct (String.eqb key key') eqn:E; [reflexivity|].
    apply String.eqb_neq in E. reflexivity.
  - destruct (String.eqb k key) eqn:E; simpl.
    + apply String.eqb_eq in E. subst k. now destruct (String.eqb key key').
    + rewrite IH. destruct (String.eqb k key') eqn:E'; [|reflexivity].
      apply String.eqb_eq in E'. subst k. now rewrite (String.eqb_sym key key'), E.
Qed.

Lemma get_report_setitem (d : main.Dict) (key key' : string) (value : ValidationReport) :
  main.get_report (main.setitem d key value) key'
  = if String.eqb key key' then main.Returns value else main.get_report d key'.
Proof.
  unfold main.get_report. rewrite contains_setitem, getitem_setitem.
  now destruct (String.eqb key key').
Qed.

Lemma contains_remove (d : main.Dict) (key key' : string) :
  main.contains (filter (fun item => negb (String.eqb (fst item) key)) d) key'
  = (negb (String.eqb key key') && main.contains d key')%bool.
Proof.
  induction d as [|[k v] d IH]; simpl; [now rewrite andb_false_r|].
  destruct (String.eqb k key) eqn:E; simpl.
  - apply String.eqb_eq in E. subst k. rewrite IH.
    now destruct (String.eqb key key').
  - rewrite IH. destruct (String.eqb k key') eqn:E'; simpl; [|reflexivity].
    apply String.eqb_eq in E'. subst k. now rewrite (String.eqb_sym key key'), E.
Qed.

Lemma getitem_remove (d : main.Dict) (key key' : string) :
  String.eqb key key' = false ->
  main.getitem (filter (fun item => negb (String.eqb (fst item) key)) d) key'
  = main.getitem d key'.
Proof.
  intro Hne. induction d as [|[k v] d IH]; simpl; [reflexivity|].
  destruct (String.eqb k key) eqn:E; simpl.
  - apply String.eqb_eq in E. subst k. now rewrite Hne.
  - now rewrite IH.
Qed.

(** X12: after [validate_model] has accepted a file, [get_report] with the
    id of the report it returned gives that report back, the answer for any
    other id is what it was before, and [list_reports] holds a row with the
    id, file name, decision and timestamp of the report. *)
Theorem validate_then_get_report (str_float : float -> string)
    (allowed_iteration : list string) (reports_storage reports_storage' : main.Dict)
    (run : Run) (file : main.UploadFile) (tmp_file : result string)
    (load : result trimesh.Loaded) (report : ValidationReport) :
  main.validate_model str_float allowed_iteration reports_storage run file tmp_file load
  = (main.Returns report, reports_storage') ->
  main.get_report reports_storage' (model_id report) = main.Returns report /\
  (forall other, other <> model_id report ->
     main.get_report reports_storage' other = main.get_report reports_storage other) /\
  In {| main.summary_model_id := model_id report;
        main.summary_filename := main.upload_filename file;
        main.summary_decision := decision report;
        main.summary_timestamp := timestamp report |}
     (main.list_reports reports_storage').
Proof.
  unfold main.validate_model.
  destruct (negb (existsb _ main.allowed_extensions)); [discriminate|].
  destruct (match main.size file with Some _ => _ | None => false end); [discriminate|].
  destruct tmp_file as [tmp_file_path|e]; [|discriminate].
  cbn [bind]. intro H. injection H as <- <-.
  set (report := validate_mesh str_float MeshValidator_default run load
                   (main.upload_filename file)).
  repeat split.
  - now rewrite get_report_setitem, String.eqb_refl.
  - intros other Hne. rewrite get_report_setitem.
    destruct (String.eqb (model_id report) other) eqn:E; [|reflexivity].
    apply String.eqb_eq in E. congruence.
  - assert (Hin : In (model_id report, report)
                    (main.setitem reports_storage (model_id report) report)).
    { generalize (model_id report) as key. intro key.
      induction reports_storage as [|[k v] d IH]; simpl; [now left|].
      destruct (String.eqb k key) eqn:E; simpl.
      - apply String.eqb_eq in E. subst k. now left.
      - now right. }
    unfold main.list_reports. apply in_map_iff.
    exists (model_id report, report). split; [|assumption].
    cbn [snd]. f_equal.
    subst report. unfold validate_mesh.
    destruct (validate_mesh_try str_float MeshValidator_default run load
                (main.upload_filename file)) as [r|e] eqn:E; [|reflexivity].
    unfold validate_mesh_try in E.
    destruct (_load_mesh load) as [mesh|e]; [|discriminate].
    cbn [bind] in E.
    destruct (_run_validation_checks str_float MeshValidator_default mesh run)
      as [[es ws]|e]; [|discriminate].
    cbn [bind] in E. now injection E as <-.
Qed.

Lemma validate_then_get_report_witness :
  main.get_report [("run-1", Examples.cube_report)] "run-1"
  = main.Returns Examples.cube_report.
Proof.
  exact (proj1 (validate_then_get_report Examples.str_float Examples.allowed_iteration
                  [] [("run-1", Examples.cube_report)]
                  (Examples.run_sampling "run-1" (Ok Examples.cube_face_centres))
                  Examples.cube_upload (Ok "/tmp/tmpq1w2e3r4.stl")
                  (Ok (trimesh.Geometry Examples.cube))
                  Examples.cube_report eq_refl)).
Defined.

(** X13: [get_report] and [delete_report] let no KeyError escape: an id that
    is not stored gives status 404 and leaves the store as it is.
    [delete_report] of a stored id answers "Report deleted successfully";
    after it [get_report] gives 404 for that id and answers as before for
    every other id, and the remaining reports keep their order. *)
Theorem delete_report_spec (reports_storage : main.Dict) (model_id : string) :
  (main.contains reports_storage model_id = false ->
   main.get_report reports_storage model_id = main.HTTPException 404 "Report not found" /\
   main.delete_report reports_storage model_id
   = (main.HTTPException 404 "Report not found", reports_storage)) /\
  (main.contains reports_storage model_id = true ->
   (exists report, main.get_report reports_storage model_id = main.Returns report) /\
   exists reports_storage',
     main.delete_report reports_storage model_id
     = (main.Returns "Report deleted successfully", reports_storage') /\
     main.get_report reports_storage' model_id = main.HTTPException 404 "Report not found" /\
     (forall other, other <> model_id ->
        main.get_report reports_storage' other = main.get_report reports_storage other) /\
     reports_storage' = filter (fun item => negb (String.eqb (fst item) model_id))
                          reports_storage).
Proof.
  split; intro Hc.
  - unfold main.get_report, main.delete_report. now rewrite Hc.
  - split.
    + unfold main.get_report. rewrite Hc. cbn [negb].
      destruct (getitem_contains _ _ Hc) as [report ->]. eauto.
    + eexists. unfold main.delete_report, main.delitem. rewrite Hc. cbn [negb].
      split; [reflexivity|]. split; [|split; [|reflexivity]].
      * unfold main.get_report. rewrite contains_remove, String.eqb_refl. reflexivity.
      * intros other Hne. unfold main.get_report.
        assert (E : String.eqb model_id other = false)
          by (apply String.eqb_neq; congruence).
        now rewrite contains_remove, E, (getitem_remove _ _ _ E).
Qed.

Lemma delete_report_spec_witness :
  main.get_report [] "run-1" = main.HTTPException 404 "Report not found" /\
  main.delete_report [] "run-1" = (main.HTTPException 404 "Report not found", []).
Proof.
  exact (proj1 (delete_report_spec [] "run-1") eq_refl).
Defined.

Lemma setitem_keys (d : main.Dict) (key : string) (value : ValidationReport) :
  map fst (main.setitem d key value)
  = if main.contains d key then map fst d else map fst d ++ [key].
Proof.
  induction d as [|[k v] d IH]; simpl; [reflexivity|].
  destruct (String.eqb k key) eqn:E; simpl; [reflexivity|].
  rewrite IH. now destruct (main.contains d key).
Qed.

Lemma setitem_In (d : main.Dict) (key : string) (value : ValidationReport) :
  forall item, In item (main.setitem d key value) -> In item d \/ item = (key, value).
Proof.
  induction d as [|[k v] d IH]; simpl; intros item H.
  - destruct H as [<-|[]]. now right.
  - destruct (String.eqb k key) eqn:E; simpl in H.
    + apply String.eqb_eq in E. subst k. destruct H as [<-|H]; auto.
    + destruct H as [<-|H]; auto. destruct (IH item H); auto.
Qed.

(** X14: the store keeps its keys distinct and every report under its own
    id: this holds of the empty store and is preserved by every request to
    [validate_model] and to [delete_report], accepted or refused; under it
    the rows of [list_reports] are as many as the stored reports and carry
    distinct ids, and an accepted upload adds one row unless its id is
    already stored. *)
Theorem store_invariant (str_float : float -> string) (allowed_iteration : list string) :
  store_ok [] /\
  (forall reports_storage run file tmp_file load,
     store_ok reports_storage ->
     store_ok (snd (main.validate_model str_float allowed_iteration reports_storage
                      run file tmp_file load))) /\
  (forall reports_storage model_id,
     store_ok reports_storage ->
     store_ok (snd (main.delete_report reports_storage model_id))) /\
  (forall reports_storage,
     store_ok reports_storage ->
     length (main.list_reports reports_storage) = length reports_storage /\
     NoDup (map main.summary_model_id (main.list_reports reports_storage))) /\
  (forall reports_storage run file tmp_file load report reports_storage',
     main.validate_model str_float allowed_iteration reports_storage run file tmp_file load
     = (main.Returns report, reports_storage') ->
     length reports_storage'
     = if main.contains reports_storage (model_id report)
       then length reports_storage else S (length reports_storage)).
Proof.
  split; [split; constructor|].
  split; [|split; [|split]].
  - intros d run file tmp_file load [Hnd Hkey]. unfold main.validate_model.
    destruct (negb (existsb _ main.allowed_extensions)); [now split|].
    destruct (match main.size file with Some _ => _ | None => false end); [now split|].
    destruct tmp_file as [tmp_file_path|e]; [|now split].
    cbn [bind snd].
    set (report := validate_mesh str_float MeshValidator_default run load
                     (main.upload_filename file)).
    split.
    + rewrite setitem_keys. destruct (main.contains d (model_id report)) eqn:E;
        [assumption|].
      apply NoDup_app; [assumption | repeat constructor; intros [] |].
      intros k Hk [<-|[]].
      apply contains_In in Hk. congruence.
    + apply Forall_forall. intros item Hin.
      apply setitem_In in Hin as [Hin| ->]; [|reflexivity].
      rewrite Forall_forall in Hkey. now apply Hkey.
  - intros d key [Hnd Hkey]. unfold main.delete_report, main.delitem.
    destruct (main.contains d key); cbn [negb snd]; [|now split].
    split.
    + clear Hkey. induction d as [|[k v] d IH]; simpl; [constructor|].
      inversion Hnd as [|? ? Hnot Hnd']; subst.
      destruct (String.eqb k key); simpl; [now apply IH|].
      constructor; [|now apply IH].
      intro Hin. apply Hnot. apply in_map_iff in Hin as (item & Hf & Hin).
      apply filter_In in Hin as [Hin _]. apply in_map_iff. eauto.
    + apply Forall_forall. intros item Hin. apply filter_In in Hin as [Hin _].
      rewrite Forall_forall in Hkey. now apply Hkey.
  - intros d [Hnd Hkey]. unfold main.list_reports. rewrite length_map. split; [reflexivity|].
    rewrite map_map. cbn [main.summary_model_id].
    replace (map (fun item => model_id (snd item)) d) with (map fst d); [assumption|].
    apply map_ext_in. intros item Hin. rewrite Forall_forall in Hkey. now apply Hkey.
  - intros d run file tmp_file load report d'. unfold main.validate_model.
    destruct (negb (existsb _ main.allowed_extensions)); [discriminate|].
    destruct (match main.size file with Some _ => _ | None => false end); [discriminate|].
    destruct tmp_file as [tmp_file_path|e]; [|discriminate].
    cbn [bind]. intro H. injection H as <- <-.
    rewrite <- (length_map fst), setitem_keys.
    destruct (main.contains d _); rewrite ?length_app, length_map; simpl; lia.
Qed.

Lemma store_invariant_witness :
  store_ok (snd (main.validate_model Examples.str_float Examples.allowed_iteration []
                   (Examples.run_sampling "run-1" (Ok Examples.cube_face_centres))
                   Examples.cube_upload (Ok "/tmp/tmpq1w2e3r4.stl")
                   (Ok (trimesh.Geometry Examples.cube)))).
Proof.
  destruct (store_invariant Examples.str_float Examples.allowed_iteration)
    as (Hempty & Hvalidate & _).
  apply Hvalidate. exact Hempty.
Defined.

(** ** File extensions *)

Import Ascii.

Lemma string_of_list_ascii_app (l1 l2 : list Ascii.ascii) :
  string_of_list_ascii (l1 ++ l2)
  = (string_of_list_ascii l1 ++ string_of_list_ascii l2)%string.
Proof. induction l1 as [|a l1 IH]; simpl; [reflexivity | now rewrite IH]. Qed.

Lemma list_ascii_of_string_app (s1 s2 : string) :
  list_ascii_of_string (s1 ++ s2)%string
  = list_ascii_of_string s1 ++ list_ascii_of_string s2.
Proof. induction s1 as [|a s1 IH]; simpl; [reflexivity | now rewrite IH]. Qed.

Lemma string_append_nil_r (s : string) : (s ++ "")%string = s.
Proof. induction s as [|a s IH]; simpl; [reflexivity | now rewrite IH]. Qed.

Lemma rfind_from_spec (c : Ascii.ascii) (p : list Ascii.ascii) :
  forall i found,
    (main.rfind_from c p i found = found /\ ~ In c p) \/
    ((i <= main.rfind_from c p i found < i + Z.of_nat (length p))%Z /\
     nth_error p (Z.to_nat (main.rfind_from c p i found - i)) = Some c /\
     ~ In c (skipn (S (Z.to_nat (main.rfind_from c p i found - i))) p)).
Proof.
  induction p as [|x p IH]; intros i found.
  - left. split; [reflexivity | intros []].
  - cbn [main.rfind_from].
    destruct (IH (i + 1)%Z (if Ascii.eqb x c then i else found))
      as [[Hr Hnot]|(Hrange & Hnth & Hskip)].
    + rewrite Hr. destruct (Ascii.eqb x c) eqn:E.
      * apply Ascii.eqb_eq in E. subst x. right.
        rewrite Z.sub_diag. cbn [Z.to_nat nth_error skipn length].
        repeat split; [lia | lia | assumption].
      * left. split; [reflexivity|]. intros [->|Hin]; [|contradiction].
        now rewrite Ascii.eqb_refl in E.
    + right.
      replace (Z.to_nat (main.rfind_from c p (i + 1) (if Ascii.eqb x c then i else found) - i))
        with (S (Z.to_nat (main.rfind_from c p (i + 1)
                             (if Ascii.eqb x c then i else found) - (i + 1))))
        by lia.
      cbn [nth_error skipn length]. repeat split; try assumption; lia.
Qed.

Lemma skipn_suffix_In {A : Type} (x : A) (l : list A) (n m : nat) :
  n <= m -> In x (skipn m l) -> In x (skipn n l).
Proof.
  intros Hle Hin. replace m with ((m - n) + n) in Hin by lia.
  rewrite <- skipn_skipn in Hin.
  rewrite <- (firstn_skipn (m - n) (skipn n l)). apply in_or_app. now right.
Qed.

(** X16: [os.path.splitext] cuts the path in two parts that concatenate to
    the path again; the extension is empty, or it is a dot followed by
    characters among which there is neither a dot nor a slash, and the root
    is then not empty. *)
Theorem splitext_recompose (p : string) :
  let root := fst (main.splitext p) in
  let ext := snd (main.splitext p) in
  (root ++ ext)%string = p /\
  (ext = "" \/
   exists rest,
     ext = String "."%char rest /\
     ~ In "."%char (list_ascii_of_string rest) /\
     ~ In "/"%char (list_ascii_of_string rest) /\
     root <> "").
Proof.
  unfold main.splitext.
  set (l := list_ascii_of_string p).
  set (sep := main.rfind "/"%char l).
  set (dot := main.rfind "."%char l).
  destruct (sep <? dot)%Z eqn:Elt;
    [|cbn [fst snd]; split; [apply string_append_nil_r | now left]].
  destruct (existsb _ _) eqn:Eex;
    [|cbn [fst snd]; split; [apply string_append_nil_r | now left]].
  cbn [fst snd]. apply Z.ltb_lt in Elt.
  split.
  - rewrite <- string_of_list_ascii_app, firstn_skipn.
    apply string_of_list_ascii_of_string.
  - right.
    assert (Hsep : (-1 <= sep)%Z).
    { pose proof (rfind_from_spec "/"%char l 0 (-1)) as Hsp.
      change (main.rfind_from "/"%char l 0 (-1)) with sep in Hsp.
      destruct Hsp as [[Hs _]|(Hr & _)]; lia. }
    pose proof (rfind_from_spec "."%char l 0 (-1)) as Hdot.
    change (main.rfind_from "."%char l 0 (-1)) with dot in Hdot.
    destruct Hdot as [[Hd _]|(Hrange & Hnth & Hskip)]; [lia|].
    rewrite Z.sub_0_r in *.
    destruct (skipn (Z.to_nat dot) l) as [|x rest] eqn:Es.
    { exfalso. assert (Hlen : length (skipn (Z.to_nat dot) l) = 0) by now rewrite Es.
      rewrite length_skipn in Hlen. lia. }
    assert (Hx : x = "."%char).
    { assert (H0 : nth_error (skipn (Z.to_nat dot) l) 0 = Some x) by now rewrite Es.
      rewrite nth_error_skipn, Nat.add_0_r in H0. congruence. }
    assert (Hrest : skipn (S (Z.to_nat dot)) l = rest).
    { replace (S (Z.to_nat dot)) with (1 + Z.to_nat dot) by lia.
      now rewrite <- skipn_skipn, Es. }
    exists (string_of_list_ascii rest).
    rewrite list_ascii_of_string_of_list_ascii. subst x.
    repeat split.
    + rewrite <- Hrest. assumption.
    + rewrite <- Hrest. intro Hin.
      pose proof (rfind_from_spec "/"%char l 0 (-1)) as Hsp.
      change (main.rfind_from "/"%char l 0 (-1)) with sep in Hsp.
      destruct Hsp as [[_ Hnot]|(Hr & _ & Hskip')].
      * apply Hnot. rewrite <- (firstn_skipn (S (Z.to_nat dot)) l).
        apply in_or_app. now right.
      * rewrite Z.sub_0_r in *. apply Hskip'.
        apply (skipn_suffix_In _ l _ (S (Z.to_nat dot))); [lia | assumption].
    + intro Hroot.
      assert (Hnil : firstn (Z.to_nat dot) l = []).
      { rewrite <- (list_ascii_of_string_of_list_ascii (firstn (Z.to_nat dot) l)).
        now rewrite Hroot. }
      assert (Hlen : length (firstn (Z.to_nat dot) l) = 0) by now rewrite Hnil.
      rewrite length_firstn in Hlen.
      assert (Hdot0 : Z.to_nat dot = 0) by lia.
      replace (Z.to_nat (dot - (sep + 1))) with 0 in Eex by lia.
      discriminate.
Qed.

Lemma rfind_from_app (c : ascii) (a b : list ascii) :
  forall i found,
    main.rfind_from c (a ++ b) i found
    = main.rfind_from c b (i + Z.of_nat (length a)) (main.rfind_from c a i found).
Proof.
  induction a as [|x a IH]; intros i found.
  - simpl. now rewrite Z.add_0_r.
  - cbn [app main.rfind_from length]. rewrite IH. f_equal. lia.
Qed.

Lemma rfind_from_absent (c : ascii) (b : list ascii) :
  ~ In c b -> forall i found, main.rfind_from c b i found = found.
Proof.
  induction b as [|x b IH]; intros Hnot i found; [reflexivity|].
  cbn [main.rfind_from]. rewrite IH by (intro H; apply Hnot; now right).
  destruct (Ascii.eqb x c) eqn:E; [|reflexivity].
  apply Ascii.eqb_eq in E. subst x. exfalso. apply Hnot. now left.
Qed.

(** X17: for a file name [base.ext] whose base holds no slash and some
    character other than a dot, and whose [ext] holds neither a dot nor a
    slash, [os.path.splitext] gives [base] and [.ext]; [validate_model]
    refuses such an upload with status 400 exactly when [.ext], its ASCII
    capitals lower-cased, is none of .stl, .obj and .ply. *)
Theorem plain_name_extension (base ext : string) :
  ~ In "/"%char (list_ascii_of_string base) ->
  (exists ch, In ch (list_ascii_of_string base) /\ ch <> "."%char) ->
  ~ In "."%char (list_ascii_of_string ext) ->
  ~ In "/"%char (list_ascii_of_string ext) ->
  main.splitext (base ++ String "." ext)%string = (base, String "." ext) /\
  forall str_float allowed_iteration reports_storage run size tmp_file load,
    let file := {| main.upload_filename := (base ++ String "." ext)%string;
                   main.size := size |} in
    (exists detail,
       fst (main.validate_model str_float allowed_iteration reports_storage run file
              tmp_file load)
       = main.HTTPException 400 detail) <->
    existsb (String.eqb (String "." (main.lower ext))) [".stl"; ".obj"; ".ply"] = false.
Proof.
  intros Hbase_sep [ch [Hch Hne]] Hext_dot Hext_sep.
  assert (Hsplit : main.splitext (base ++ String "." ext)%string = (base, String "." ext)).
  { unfold main.splitext, main.rfind.
    rewrite list_ascii_of_string_app. cbn [list_ascii_of_string].
    set (lb := list_ascii_of_string base) in *.
    set (le := list_ascii_of_string ext) in *.
    rewrite !rfind_from_app. cbn [main.rfind_from].
    rewrite (rfind_from_absent "/"%char lb Hbase_sep).
    rewrite (rfind_from_absent "/"%char le Hext_sep).
    rewrite (rfind_from_absent "."%char le Hext_dot).
    cbn [Ascii.eqb Bool.eqb andb]. rewrite Z.add_0_l.
    assert (Hlt : (-1 <? Z.of_nat (length lb))%Z = true) by (apply Z.ltb_lt; lia).
    rewrite Hlt.
    replace (Z.to_nat (-1 + 1)) with 0 by lia.
    replace (Z.to_nat (Z.of_nat (length lb) - (-1 + 1))) with (length lb) by lia.
    rewrite Nat2Z.id. cbn [skipn].
    rewrite firstn_app, Nat.sub_diag, firstn_all. cbn [firstn]. rewrite app_nil_r.
    assert (Hex : existsb (fun c => negb (Ascii.eqb c "."%char)) lb = true).
    { apply existsb_exists. exists ch. split; [assumption|].
      apply negb_true_iff. now apply Ascii.eqb_neq. }
    rewrite Hex.
    rewrite skipn_app, Nat.sub_diag, skipn_all. cbn [skipn app].
    unfold lb, le. cbn [string_of_list_ascii].
    now rewrite !string_of_list_ascii_of_string. }
  split; [assumption|].
  intros str_float allowed_iteration reports_storage run size tmp_file load file.
  unfold main.validate_model. subst file. cbn [main.upload_filename main.size].
  rewrite Hsplit. cbn [snd].
  assert (Hlower : main.lower (String "." ext) = String "." (main.lower ext))
    by reflexivity.
  rewrite Hlower.
  change main.allowed_extensions with [".stl"; ".obj"; ".ply"].
  destruct (existsb (String.eqb (String "." (main.lower ext))) [".stl"; ".obj"; ".ply"]);
    cbn [negb].
  - split; [|discriminate]. intros [detail H].
    destruct (match size with Some _ => _ | None => false end); [discriminate|].
    destruct tmp_file; discriminate.
  - split; [reflexivity|]. intros _. eexists. reflexivity.
Qed.

Lemma plain_name_extension_witness :
  main.splitext "Cube.STL" = ("Cube", ".STL").
Proof.
  refine (proj1 (plain_name_extension "Cube" "STL" _ _ _ _)).
  - simpl. intuition discriminate.
  - exists "C"%char. split; [now left | discriminate].
  - simpl. intuition discriminate.
  - simpl. intuition discriminate.
Defined.
